(** * The multipart ETag of [dandi/core/digests/dandietag.py]

    A shallow embedding of [PartGenerator] (the partition plan of a file
    size) and of [DandiETag] (the accumulator of per-part MD5 digests),
    with the properties of the specification proved over it.

    Python integers are [Z]; [bytes] are lists of [byte]; a raised
    exception is the [Raise] alternative of [result]; the methods that
    mutate [self] return the new accumulator next to their outcome.

    Around it: [Digester] of [dandi/support/digests.py], and of
    [tools/backups2datalad.py] the environment variables set around a
    commit, the listing of the files of a dataset and the paging through
    the identifiers of the Dandisets. *)

From Stdlib Require Import ZArith Lia Bool List String Ascii.
From Stdlib Require Import Floats.SpecFloat Strings.Byte.
From Stdlib Require DecimalString.
From stdpp Require Import base list.

Local Open Scope Z_scope.

(** ** Exceptions *)

Inductive exn : Set :=
| ValueError
| IndexError
| RuntimeError
| AssertionError
| OverflowError
| ZeroDivisionError.

Inductive result (A : Type) : Type :=
| Ok (a : A)
| Raise (e : exn).

Arguments Ok {A} a.
Arguments Raise {A} e.

Definition bind {A B : Type} (r : result A) (k : A -> result B) : result B :=
  match r with
  | Ok a => k a
  | Raise e => Raise e
  end.

Notation "x <- r ;; k" := (bind r (fun x => k))
  (at level 100, r at next level, right associativity).

(** ** Python's [int / int] and [math.ceil]

    [a / b] on two [int]s is the binary64 number nearest to the exact
    quotient (ties to even).  The quotient and its rounding are those of
    the IEEE 754 specification of the Standard Library, at precision 53
    and maximal exponent 1024, applied to the two integers as mantissas
    of exponent 0. *)

Module PyFloat.

Definition prec : Z := 53.
Definition emax : Z := 1024.

Definition truediv (a b : Z) : result spec_float :=
  if b =? 0 then Raise ZeroDivisionError
  else if a =? 0 then Ok (S754_zero (b <? 0))
  else
    let '(mz, ez, lz) := SFdiv_core_binary prec emax (Z.abs a) 0 (Z.abs b) 0 in
    match binary_round_aux prec emax (xorb (a <? 0) (b <? 0)) mz ez lz with
    | S754_infinity _ => Raise OverflowError
    | f => Ok f
    end.

(** The least integer not below [m * 2 ^ e]. *)
Definition ceil_scaled (m e : Z) : Z :=
  if 0 <=? e then m * 2 ^ e else - ((- m) / 2 ^ (- e)).

(** [math.ceil] of a float. *)
Definition ceil (f : spec_float) : result Z :=
  match f with
  | S754_zero _ => Ok 0
  | S754_infinity _ => Raise OverflowError
  | S754_nan => Raise ValueError
  | S754_finite s m e =>
      Ok (ceil_scaled (if s then Z.neg m else Z.pos m) e)
  end.

(** [math.ceil(a / b)]. *)
Definition ceil_truediv (a b : Z) : result Z :=
  f <- truediv a b ;; ceil f.

(** *** Notions for the proofs about the rounding *)

(** The integer ceiling of [a / b], as [-(-a // b)]. *)
Definition ceil_div (a b : Z) : Z := - (- a / b).

(** A mantissa of 53 bits stays as it is; [2 ^ 53], which rounding up can
    reach, becomes [2 ^ 52] at the next exponent. *)
Definition normalize53 (m e : Z) : Z * Z :=
  if m <? 2 ^ 53 then (m, e) else (m / 2, e + 1).

(** The second half of [binary_round_aux]: the shift after rounding. *)
Definition after_rounding (sx : bool) (m1 e : Z) : spec_float :=
  let '(mrs, e'') := shr_fexp prec emax m1 e loc_Exact in
  match shr_m mrs with
  | Z0 => S754_zero sx
  | Zpos m =>
      if e'' <=? emax - prec then S754_finite sx m e'' else S754_infinity sx
  | Zneg _ => S754_nan
  end.

End PyFloat.

(** ** Sizes *)

Definition mb (bytes_size : Z) : Z := bytes_size * 2 ^ 20.
Definition gb (bytes_size : Z) : Z := bytes_size * 2 ^ 30.
Definition tb (bytes_size : Z) : Z := bytes_size * 2 ^ 40.

(** ** Parts and the partition plan *)

Record Part : Set := mkPart {
  number : Z;
  offset : Z;
  size : Z
}.

Record PartGenerator : Set := mkPartGenerator {
  part_qty : Z;
  initial_part_size : Z;
  final_part_size : Z
}.

Definition MAX_PARTS : Z := 10000.
Definition MIN_PART_SIZE : Z := mb 5.
Definition MAX_PART_SIZE : Z := gb 5.

Definition for_file_size (file_size : Z) : result PartGenerator :=
  let part_size := mb 64 in
  if file_size >? tb 5 then Raise ValueError
  else
    n <- PyFloat.ceil_truediv file_size part_size ;;
    part_size <- (if n >=? MAX_PARTS
                  then PyFloat.ceil_truediv file_size MAX_PARTS
                  else Ok part_size) ;;
    let part_size :=
      if part_size <? MIN_PART_SIZE then MIN_PART_SIZE else part_size in
    let part_size :=
      if part_size >? MAX_PART_SIZE then MAX_PART_SIZE else part_size in
    let part_qty := file_size / part_size in
    let final_part_size := file_size mod part_size in
    let '(part_qty, final_part_size) :=
      if final_part_size =? 0 then (part_qty, part_size)
      else (part_qty + 1, final_part_size) in
    let part_size := if part_qty =? 1 then final_part_size else part_size in
    Ok (mkPartGenerator part_qty part_size final_part_size).

Definition __len__ (self : PartGenerator) : Z := part_qty self.

(** The builtin [len(plan)]: Python refuses a negative [__len__]. *)
Definition len (self : PartGenerator) : result Z :=
  if __len__ self <? 0 then Raise ValueError else Ok (__len__ self).

(** [plan[index]]. *)
Definition __getitem__ (self : PartGenerator) (index : Z) : result Part :=
  if (1 <=? index) && (index <? part_qty self) then
    Ok (mkPart index (initial_part_size self * (index - 1))
          (initial_part_size self))
  else if index =? part_qty self then
    Ok (mkPart index (initial_part_size self * (index - 1))
          (final_part_size self))
  else Raise IndexError.

(** The body of the [for] loop of [__iter__], over the numbers that
    [range(1, part_qty)] gives: the parts yielded and the offset reached. *)
Fixpoint iter_loop (self : PartGenerator) (numbers : list Z) (offset : Z)
  : list Part * Z :=
  match numbers with
  | [] => ([], offset)
  | number :: rest =>
      let '(ps, offset') :=
        iter_loop self rest (offset + initial_part_size self) in
      (mkPart number offset (initial_part_size self) :: ps, offset')
  end.

(** [range(start, stop)]. *)
Definition range (start stop : Z) : list Z := seqZ start (stop - start).

(** [list(iter(plan))]: the parts in the order they are yielded. *)
Definition __iter__ (self : PartGenerator) : list Part :=
  let '(ps, offset) := iter_loop self (range 1 (part_qty self)) 0 in
  ps ++ [mkPart (part_qty self) offset (final_part_size self)].

(** *** Notions for the statements about plans *)

(** The plan that the last lines of [for_file_size] build from the part
    size they have settled on. *)
Definition plan (file_size part_size : Z) : PartGenerator :=
  let part_qty := file_size / part_size in
  let final_part_size := file_size mod part_size in
  let '(part_qty, final_part_size) :=
    if final_part_size =? 0 then (part_qty, part_size)
    else (part_qty + 1, final_part_size) in
  let part_size := if part_qty =? 1 then final_part_size else part_size in
  mkPartGenerator part_qty part_size final_part_size.

(** The parts tile [from, to): each starts where the one before ends and
    none is empty. *)
Fixpoint tiles (ps : list Part) (from to : Z) : Prop :=
  match ps with
  | [] => from = to
  | p :: rest => offset p = from /\ 0 < size p /\ tiles rest (from + size p) to
  end.

Definition total_size (ps : list Part) : Z :=
  foldr (fun p acc => size p + acc) 0 ps.

(** ** Python lists and bytes *)

Definition bytes : Set := list byte.

(** The position that Python gives index [i] of a list: negative indices
    count from the end, anything else out of range is an [IndexError]. *)
Definition py_index {A : Type} (l : list A) (i : Z) : result nat :=
  let n := Z.of_nat (length l) in
  if (0 <=? i) && (i <? n) then Ok (Z.to_nat i)
  else if (- n <=? i) && (i <? 0) then Ok (Z.to_nat (n + i))
  else Raise IndexError.

(** [l[i]]. *)
Definition list_get {A : Type} (l : list A) (i : Z) : result A :=
  k <- py_index l i ;;
  match l !! k with
  | Some x => Ok x
  | None => Raise IndexError
  end.

(** [l[i] = v]. *)
Definition list_set {A : Type} (l : list A) (i : Z) (v : A)
  : result (list A) :=
  k <- py_index l i ;; Ok (<[k := v]> l).

(** ** Text: hexadecimal digests and decimal numbers *)

Definition hex_digit (n : N) : ascii :=
  match n with
  | 0%N => "0" | 1%N => "1" | 2%N => "2" | 3%N => "3"
  | 4%N => "4" | 5%N => "5" | 6%N => "6" | 7%N => "7"
  | 8%N => "8" | 9%N => "9" | 10%N => "a" | 11%N => "b"
  | 12%N => "c" | 13%N => "d" | 14%N => "e" | _ => "f"
  end%char.

(** [bytes.hex()]: two lowercase hexadecimal digits per byte. *)
Fixpoint hex (b : bytes) : string :=
  match b with
  | [] => EmptyString
  | x :: rest =>
      let n := Byte.to_N x in
      String (hex_digit (n / 16)) (String (hex_digit (n mod 16)) (hex rest))
  end.

(** [str(n)] of an integer. *)
Definition str_of_int (n : Z) : string :=
  DecimalString.NilZero.string_of_int (Z.to_int n).

(** ** The accumulator *)

Record DandiETag : Type := mkDandiETag {
  _part_gen : PartGenerator;
  _md5_digests : list (option bytes);
  _next_index : Z
}.

Definition set_md5_digests (self : DandiETag) (l : list (option bytes))
  : DandiETag :=
  mkDandiETag (_part_gen self) l (_next_index self).

Definition set_next_index (self : DandiETag) (i : Z) : DandiETag :=
  mkDandiETag (_part_gen self) (_md5_digests self) i.

(** [DandiETag(file_size)]. *)
Definition __init__ (file_size : Z) : result DandiETag :=
  pg <- for_file_size file_size ;;
  n <- len pg ;;
  Ok (mkDandiETag pg (replicate (Z.to_nat n) None) 0).

(** The property [part_qty]. *)
Definition etag_part_qty (self : DandiETag) : result Z :=
  len (_part_gen self).

(** The property [complete]. *)
Definition complete (self : DandiETag) : result bool :=
  q <- etag_part_qty self ;; Ok (_next_index self =? q).

Definition get_parts (self : DandiETag) : list Part :=
  __iter__ (_part_gen self).

Definition get_next_part (self : DandiETag) : result (option Part) :=
  q <- etag_part_qty self ;;
  if _next_index self <? q then
    p <- __getitem__ (_part_gen self) (_next_index self + 1) ;; Ok (Some p)
  else Ok None.

(** The [while] loop of [_update_index].  Every turn adds one to
    [_next_index] and the loop stops at [part_qty], so
    [part_qty - _next_index] turns are all it can take. *)
Fixpoint _update_index_loop (fuel : nat) (self : DandiETag)
  : result unit * DandiETag :=
  match fuel with
  | O => (Ok tt, self)
  | S fuel' =>
      match etag_part_qty self with
      | Raise e => (Raise e, self)
      | Ok q =>
          if _next_index self <? q then
            match list_get (_md5_digests self) (_next_index self) with
            | Raise e => (Raise e, self)
            | Ok (Some _) =>
                _update_index_loop fuel'
                  (set_next_index self (_next_index self + 1))
            | Ok None => (Ok tt, self)
            end
          else (Ok tt, self)
      end
  end.

Definition _update_index (self : DandiETag) : result unit * DandiETag :=
  match etag_part_qty self with
  | Raise e => (Raise e, self)
  | Ok q => _update_index_loop (Z.to_nat (q - _next_index self)) self
  end.

Definition add_digest (self : DandiETag) (p : Part) (part_digest : bytes)
  : result unit * DandiETag :=
  let i := number p - 1 in
  match list_get (_md5_digests self) i with
  | Raise e => (Raise e, self)
  | Ok (Some _) => (Raise RuntimeError, self)
  | Ok None =>
      match list_set (_md5_digests self) i (Some part_digest) with
      | Raise e => (Raise e, self)
      | Ok l => _update_index (set_md5_digests self l)
      end
  end.

Definition add_next_digest (self : DandiETag) (part_digest : bytes)
  : result unit * DandiETag :=
  match complete self with
  | Raise e => (Raise e, self)
  | Ok true => (Raise RuntimeError, self)
  | Ok false =>
      match list_set (_md5_digests self) (_next_index self)
              (Some part_digest) with
      | Raise e => (Raise e, self)
      | Ok l => _update_index (set_md5_digests self l)
      end
  end.

(** The loop of [as_str] that builds [blob]. *)
Fixpoint concat_digests (ds : list (option bytes)) (blob : bytes)
  : result bytes :=
  match ds with
  | [] => Ok blob
  | None :: _ => Raise AssertionError
  | Some d :: rest => concat_digests rest (blob ++ d)
  end.

Section Hash.

(** [md5(b).digest()] of [hashlib]: a function from bytes to bytes. *)
Variable md5 : bytes -> bytes.

Definition update (self : DandiETag) (block : bytes)
  : result unit * DandiETag :=
  match complete self with
  | Raise e => (Raise e, self)
  | Ok true => (Raise RuntimeError, self)
  | Ok false => add_next_digest self (md5 block)
  end.

Definition as_str (self : DandiETag) : result string :=
  c <- complete self ;;
  if negb c then Raise ValueError
  else
    blob <- concat_digests (_md5_digests self) [] ;;
    let parts_digest := hex (md5 blob) in
    Ok (parts_digest ++ "-"
          ++ str_of_int (Z.of_nat (length (_md5_digests self))))%string.

(** The loop of [from_file]: [f.read(part.size)] takes the next
    [part.size] bytes of what is left of the file. *)
Fixpoint from_file_loop (parts : list Part) (rest : bytes) (etag : DandiETag)
  : result unit * DandiETag :=
  match parts with
  | [] => (Ok tt, etag)
  | part :: parts' =>
      let n := Z.to_nat (size part) in
      match update etag (take n rest) with
      | (Raise e, etag') => (Raise e, etag')
      | (Ok _, etag') => from_file_loop parts' (drop n rest) etag'
      end
  end.

(** [DandiETag.from_file(path)] for a file of the given content. *)
Definition from_file (content : bytes) : result DandiETag :=
  etag <- __init__ (Z.of_nat (length content)) ;;
  match from_file_loop (get_parts etag) content etag with
  | (Raise e, _) => Raise e
  | (Ok _, etag') => Ok etag'
  end.

End Hash.

(** One call on an accumulator. *)
Inductive op : Type :=
| AddDigest (p : Part) (part_digest : bytes)
| AddNextDigest (part_digest : bytes)
| Update (block : bytes).

Definition run_op (md5 : bytes -> bytes) (o : op) (self : DandiETag)
  : result unit * DandiETag :=
  match o with
  | AddDigest p d => add_digest self p d
  | AddNextDigest d => add_next_digest self d
  | Update block => update md5 self block
  end.

(** The calls of a list one after the other, going on after a call that
    raised (its caller caught the exception). *)
Definition run_ops (md5 : bytes -> bytes) (os : list op) (self : DandiETag)
  : DandiETag :=
  fold_left (fun s o => snd (run_op md5 o s)) os self.

(** *** Notions for the statements about accumulators *)

(** The number of slots filled without a gap from slot 0. *)
Fixpoint filled_prefix (ds : list (option bytes)) : nat :=
  match ds with
  | Some _ :: rest => S (filled_prefix rest)
  | _ => O
  end.

(** One slot per part, and [_next_index] counts the slots filled without
    a gap from slot 0. *)
Definition well_formed (self : DandiETag) : Prop :=
  Z.of_nat (length (_md5_digests self)) = part_qty (_part_gen self) /\
  _next_index self = Z.of_nat (filled_prefix (_md5_digests self)).

(** The accumulators that a program can hold: built by [DandiETag(size)]
    and then used through the three submitting methods. *)
Definition reachable (md5 : bytes -> bytes) (self : DandiETag) : Prop :=
  exists file_size e0 os,
    __init__ file_size = Ok e0 /\ self = run_ops md5 os e0.

(** [add_digest] for each part of a list in turn, with the digest that
    [digest_of] binds to the number of the part; stops at the first
    exception. *)
Fixpoint submit_all (digest_of : Z -> bytes) (ps : list Part)
    (self : DandiETag) : result unit * DandiETag :=
  match ps with
  | [] => (Ok tt, self)
  | p :: rest =>
      match add_digest self p (digest_of (number p)) with
      | (Ok _, self') => submit_all digest_of rest self'
      | (Raise e, self') => (Raise e, self')
      end
  end.

(** The slots once the parts numbered in [done] have been submitted. *)
Definition slots_of (digest_of : Z -> bytes) (done : list Z) (n : Z)
  : list (option bytes) :=
  (fun k => if bool_decide (k ∈ done) then Some (digest_of k) else None)
    <$> seqZ 1 n.

(** [re.fullmatch(DandiETag.REGEX, s)], for [[0-9a-f]{32}-\d{1,5}] on
    ASCII text. *)
Definition is_hex_lower (c : ascii) : bool :=
  let n := N_of_ascii c in
  ((48 <=? n) && (n <=? 57) || (97 <=? n) && (n <=? 102))%N.

Definition is_digit (c : ascii) : bool :=
  let n := N_of_ascii c in ((48 <=? n) && (n <=? 57))%N.

Fixpoint all_chars (f : ascii -> bool) (s : string) : bool :=
  match s with
  | EmptyString => true
  | String c rest => f c && all_chars f rest
  end.

(** Reads [n] lowercase hexadecimal digits and gives what follows. *)
Fixpoint match_hex (n : nat) (s : string) : option string :=
  match n with
  | O => Some s
  | S n' =>
      match s with
      | String c rest => if is_hex_lower c then match_hex n' rest else None
      | EmptyString => None
      end
  end.

Definition fullmatch_REGEX (s : string) : bool :=
  match match_hex 32 s with
  | Some (String "-" d) =>
      all_chars is_digit d && (1 <=? String.length d)%nat
        && (String.length d <=? 5)%nat
  | _ => false
  end.

Definition MAX_STR_LENGTH : nat := 38.

(** The decimal text of [n] is 1 to 5 digits. *)
Definition decimal_ok (n : Z) : bool :=
  let d := str_of_int n in
  all_chars is_digit d && (1 <=? String.length d)%nat
    && (String.length d <=? 5)%nat.

(** *** Notions for the statements about whole files *)

(** The bytes of a file that a part covers: [part.size] bytes from
    [part.offset]. *)
Definition part_bytes (content : bytes) (p : Part) : bytes :=
  take (Z.to_nat (size p)) (drop (Z.to_nat (offset p)) content).

(** *** Values for running the definitions *)

(** A stand-in for [md5] when a statement is run on an example: any
    function with digests of 16 bytes will do. *)
Definition constant_digest (b : bytes) : bytes := replicate 16 Byte.x00.

(** The accumulator of a file of 130 MiB, fresh. *)
Definition etag_130MiB : DandiETag :=
  mkDandiETag (mkPartGenerator 3 (mb 64) (mb 2)) [None; None; None] 0.

(** * Around the ETag: [dandi/support/digests.py] and
      [tools/backups2datalad.py] *)

(** ** Python dictionaries with string keys *)

(** The items in insertion order, one per key. *)
Definition dict (V : Type) : Type := list (string * V).

(** [d.get(k)]. *)
Fixpoint dict_get {V : Type} (d : dict V) (k : string) : option V :=
  match d with
  | [] => None
  | (k', v) :: rest => if String.eqb k k' then Some v else dict_get rest k
  end.

(** [d[k] = v]: a key already there keeps its place. *)
Fixpoint dict_set {V : Type} (d : dict V) (k : string) (v : V) : dict V :=
  match d with
  | [] => [(k, v)]
  | (k', v') :: rest =>
      if String.eqb k k' then (k, v) :: rest
      else (k', v') :: dict_set rest k v
  end.

(** [del d[k]]: [None] is the [KeyError] of a key that is not there. *)
Definition dict_del {V : Type} (d : dict V) (k : string) : option (dict V) :=
  match dict_get d k with
  | None => None
  | Some _ => Some (filter (fun kv => negb (String.eqb (fst kv) k)) d)
  end.

(** What a block of statements does: it returns or it raises. *)
Inductive outcome (E A : Type) : Type :=
| Returns (a : A)
| Raises (e : E).

Arguments Returns {E A} a.
Arguments Raises {E A} e.

(** ** [Digester]: several digests of a file in one pass *)

Module Digester.





Inductive hashlib_exn : Set := AttributeError.

Record Digester : Type := mkDigester {
  _digests : list string;
  _digest_funcs : list (bytes -> bytes);
  blocksize : Z
}.

Definition DEFAULT_DIGESTS : list string :=
  ["md5"; "sha1"; "sha256"; "sha512"]%string.

(** The default of [blocksize]. *)
Definition default_blocksize : Z := Z.shiftl 1 16.



Section Hashlib.

(** [getattr(hashlib, name)] for the names of the hash algorithms: the
    constructor of the algorithm, [None] for a name that [hashlib] does
    not have. *)
Variable hashlib : string -> option (bytes -> bytes).

(** [[getattr(hashlib, digest) for digest in digests]]. *)
Fixpoint getattrs (digests : list string)
  : outcome hashlib_exn (list (bytes -> bytes)) :=
  match digests with
  | [] => Returns []
  | digest :: rest =>
      match hashlib digest with
      | None => Raises AttributeError
      | Some x =>
          match getattrs rest with
          | Returns xs => Returns (x :: xs)
          | Raises e => Raises e
          end
      end
  end.

(** [Digester(digests, blocksize)]. *)
Definition __init__ (digests : option (list string)) (blocksize : Z)
  : outcome hashlib_exn Digester :=
  let _digests :=
    match digests with
    | None | Some [] => DEFAULT_DIGESTS
    | Some l => l
    end in
  match getattrs _digests with
  | Returns funcs => Returns (mkDigester _digests funcs blocksize)
  | Raises e => Raises e
  end.

End Hashlib.


End Digester.

(** ** [tools/backups2datalad.py]: environment variables around a block *)

Section Environ.

(** The exceptions that a block of statements can raise, [KeyError] one
    of them, and what a block returns. *)
Variables (E : Type) (KeyError : E) (A : Type).

(** [with envvar_set(name, value): body], on [os.environ] as a dictionary
    (for a name and a value that the environment takes).  The body is
    what it does to the environment it is started in. *)
Definition envvar_set (name value : string)
    (body : dict string -> outcome E A * dict string)
    (environ : dict string) : outcome E A * dict string :=
  let oldvalue := dict_get environ name in
  let environ := dict_set environ name value in
  let '(r, environ) := body environ in
  match oldvalue with
  | Some oldvalue => (r, dict_set environ name oldvalue)
  | None =>
      match dict_del environ name with
      | Some environ' => (r, environ')
      | None => (Raises KeyError, environ)
      end
  end.

(** The dates of [datetime] and their text [str(dt)]. *)
Variables (datetime : Type) (str : datetime -> string).

(** [with custom_commit_date(dt): body]. *)
Definition custom_commit_date (dt : option datetime)
    (body : dict string -> outcome E A * dict string)
    (environ : dict string) : outcome E A * dict string :=
  match dt with
  | Some dt =>
      envvar_set "GIT_AUTHOR_DATE" (str dt)
        (envvar_set "GIT_COMMITTER_DATE" (str dt) body) environ
  | None => body environ
  end.

End Environ.

(** ** [tools/backups2datalad.py]: the files of a dataset *)

(** What a path is, symbolic links followed: a regular file, a directory
    with its entries by name in the order [iterdir] gives them, or
    something else (a socket, a link to nothing). *)
#[warnings="-register-all"] Inductive node : Type :=
| File
| Dir (entries : list (string * node))
| Other.

(** A path under the dataset, as its components. *)
Definition Path : Type := list string.

(** [p.iterdir()] for a directory [p] of the given entries. *)
Definition iterdir (p : Path) (entries : list (string * node))
  : list (Path * node) :=
  (fun e => (p ++ [fst e], snd e)) <$> entries.

(** The paths and directories below a node, itself included. *)
Fixpoint node_size (n : node) : nat :=
  match n with
  | Dir entries =>
      S ((fix entries_size (es : list (string * node)) : nat :=
            match es with
            | [] => O
            | (_, c) :: es' => (node_size c + entries_size es')%nat
            end) entries)
  | _ => 1%nat
  end.

Definition queue_size (files : list (Path * node)) : nat :=
  foldr (fun f acc => (node_size (snd f) + acc)%nat) O files.

(** The [while files] loop of [dataset_files] on the deque [files], with
    the paths it yields.  Every turn takes one path off the deque and a
    directory puts its entries on, so [queue_size files] turns empty
    it. *)
Fixpoint dataset_files_loop (fuel : nat) (files : list (Path * node))
  : list Path :=
  match fuel with
  | O => []
  | S fuel' =>
      match files with
      | [] => []
      | (p, n) :: files' =>
          match n with
          | File => p :: dataset_files_loop fuel' files'
          | Dir entries =>
              dataset_files_loop fuel' (files' ++ iterdir p entries)
          | Other => dataset_files_loop fuel' files'
          end
      end
  end.

(** The names that [dataset_files] leaves out at the top. *)
Definition excluded_names : list string :=
  [".dandi"; ".datalad"; ".git"; ".gitattributes"]%string.

(** [list(dataset_files(dspath))] for a directory [dspath] of the given
    entries; the paths are relative to [dspath]. *)
Definition dataset_files (dspath : list (string * node)) : list Path :=
  let files :=
    filter (fun e => negb (existsb (String.eqb (fst e)) excluded_names))
      dspath in
  let files := iterdir [] files in
  dataset_files_loop (queue_size files) files.

(** *** Notions for the statements about the files of a dataset *)

(** The components [p] lead from node [n] down to a regular file. *)
Fixpoint leads_to_file (n : node) (p : Path) : Prop :=
  match p, n with
  | [], File => True
  | name :: rest, Dir entries =>
      exists n', (name, n') ∈ entries /\ leads_to_file n' rest
  | _, _ => False
  end.

(** ** [tools/backups2datalad.py]: the identifiers of all Dandisets *)

Section GetDandisetIds.

(** The records of the server, the request
    [client.get("dandi", parameters={"limit": limit, "offset": offset})]
    and [d["meta"]["dandiset"]["identifier"]] of a record. *)
Variables (record : Type) (client_get : Z -> Z -> list record)
  (identifier : record -> string).

Definition per_page : Z := 50.

(** The [while True] loop of [get_dandiset_ids] from an offset: the
    identifiers it yields until it breaks, [None] when it has not broken
    after [fuel] requests. *)
Fixpoint get_dandiset_ids_loop (fuel : nat) (offset : Z)
  : option (list string) :=
  match fuel with
  | O => None
  | S fuel' =>
      let dandisets := client_get per_page offset in
      match dandisets with
      | [] => Some []
      | _ :: _ =>
          match get_dandiset_ids_loop fuel'
                  (offset + Z.of_nat (length dandisets)) with
          | Some ids => Some ((identifier <$> dandisets) ++ ids)
          | None => None
          end
      end
  end.

(** [list(get_dandiset_ids())], within [fuel] requests. *)
Definition get_dandiset_ids (fuel : nat) : option (list string) :=
  get_dandiset_ids_loop fuel 0.

End GetDandisetIds.

(** * Properties *)

(** ** Binary64 division of two sizes *)

Module PyFloatFacts.
Import PyFloat.

Lemma digits2_pos_size (p : positive) : digits2_pos p = Pos.size p.
Proof. induction p; simpl; congruence. Qed.

Lemma Zdigits2_log2 (x : Z) : 0 < x -> Zdigits2 x = Z.log2 x + 1.
Proof.
  destruct x as [|p|p]; try lia. intros _.
  destruct p; simpl; rewrite ?digits2_pos_size; lia.
Qed.

Lemma Zdigits2_bounds (x : Z) :
  0 < x -> 0 < Zdigits2 x /\ 2 ^ (Zdigits2 x - 1) <= x < 2 ^ Zdigits2 x.
Proof.
  intros Hx. rewrite Zdigits2_log2 by exact Hx.
  pose proof (Z.log2_spec x Hx) as H. pose proof (Z.log2_nonneg x).
  replace (Z.log2 x + 1 - 1) with (Z.log2 x) by lia.
  replace (Z.log2 x + 1) with (Z.succ (Z.log2 x)) by lia. lia.
Qed.

Lemma Zdigits2_unique (x d : Z) :
  2 ^ (d - 1) <= x < 2 ^ d -> 0 < d -> Zdigits2 x = d.
Proof.
  intros [Hlo Hhi] Hd.
  assert (Hx : 0 < x) by (pose proof (Z.pow_pos_nonneg 2 (d - 1)); lia).
  destruct (Zdigits2_bounds x Hx) as (Hd' & Hlo' & Hhi').
  destruct (Z.lt_trichotomy (Zdigits2 x) d) as [Hlt|[Heq|Hgt]]; [|exact Heq|].
  - assert (2 ^ Zdigits2 x <= 2 ^ (d - 1)) by (apply Z.pow_le_mono_r; lia). lia.
  - assert (2 ^ d <= 2 ^ (Zdigits2 x - 1)) by (apply Z.pow_le_mono_r; lia). lia.
Qed.

(** One step of the right shift on a mantissa that is not negative. *)
Lemma shr_1_nonneg (m : Z) (r s : bool) :
  0 <= m ->
  shr_1 (Build_shr_record m r s) =
  Build_shr_record (m / 2) (Z.odd m) (r || s).
Proof.
  intros Hm. destruct m as [|p|p]; [reflexivity| |lia].
  destruct p as [p|p|]; simpl.
  - f_equal. apply Z.div_unique with (r := 1); lia.
  - f_equal. apply Z.div_unique with (r := 0); lia.
  - reflexivity.
Qed.

Lemma loc_of_shr_record_of_loc (m : Z) (l : location) :
  loc_of_shr_record (shr_record_of_loc m l) = l.
Proof. destruct l as [|[]]; reflexivity. Qed.

Lemma shr_m_shr_record_of_loc (m : Z) (l : location) :
  shr_m (shr_record_of_loc m l) = m.
Proof. destruct l as [|[]]; reflexivity. Qed.

Lemma round_nearest_even_bounds (m : Z) (l : location) :
  m <= round_nearest_even m l <= m + 1 /\
  (l = loc_Exact -> round_nearest_even m l = m).
Proof.
  destruct l as [|[]]; simpl; try destruct (Z.even m); split; try lia;
    try discriminate; reflexivity.
Qed.

Lemma binary_round_aux_eq (sx : bool) (mx ex : Z) (lx : location) :
  binary_round_aux prec emax sx mx ex lx =
  let '(mrs', e') := shr_fexp prec emax mx ex lx in
  after_rounding sx
    (round_nearest_even (shr_m mrs') (loc_of_shr_record mrs')) e'.
Proof. reflexivity. Qed.

Lemma second_shift (sx : bool) (m1 e : Z) :
  2 ^ 52 <= m1 <= 2 ^ 53 -> -1074 <= e <= 969 ->
  after_rounding sx m1 e =
  S754_finite sx (Z.to_pos (fst (normalize53 m1 e))) (snd (normalize53 m1 e)).
Proof.
  intros Hm He.
  unfold after_rounding, normalize53, shr_fexp, fexp, emin, prec, emax.
  destruct (Z.ltb_spec m1 (2 ^ 53)) as [Hlt|Hge]; cbn [fst snd].
  - rewrite (Zdigits2_unique m1 53) by lia.
    replace (Z.max (53 + e - 53) (3 - 1024 - 53) - e) with 0 by lia.
    cbn [shr shr_record_of_loc shr_m].
    destruct m1 as [|p|p]; try lia.
    destruct (Z.leb_spec e (1024 - 53)); [reflexivity|lia].
  - assert (m1 = 2 ^ 53) as -> by lia.
    rewrite (Zdigits2_unique (2 ^ 53) 54) by lia.
    replace (Z.max (54 + e - 53) (3 - 1024 - 53) - e) with 1 by lia.
    cbn [shr shr_record_of_loc SpecFloat.iter_pos].
    rewrite shr_1_nonneg by lia. cbn [shr_m].
    change (2 ^ 53 / 2) with (Z.pos (Z.to_pos (2 ^ 53 / 2))).
    cbv iota beta.
    destruct (Z.leb_spec (e + 1) (1024 - 53)); [reflexivity|lia].
Qed.

Lemma ceil_scaled_double (m e : Z) :
  ceil_scaled (2 * m) e = ceil_scaled m (e + 1).
Proof.
  unfold ceil_scaled.
  destruct (Z.leb_spec 0 e), (Z.leb_spec 0 (e + 1)); try lia.
  - rewrite Z.pow_add_r by lia. lia.
  - assert (e = -1) as -> by lia.
    change (2 ^ (- -1)) with 2. change (2 ^ (-1 + 1)) with 1.
    replace (- (2 * m)) with (- m * 2) by lia.
    rewrite Z.div_mul by lia. lia.
  - replace (- e) with (1 + - (e + 1)) by lia.
    rewrite Z.pow_add_r by lia. change (2 ^ 1) with 2.
    replace (- (2 * m)) with (2 * - m) by lia.
    rewrite Z.div_mul_cancel_l; [reflexivity| |lia].
    apply Z.pow_nonzero; lia.
Qed.

Lemma ceil_scaled_normalize53 (m e : Z) :
  2 ^ 52 <= m <= 2 ^ 53 ->
  ceil_scaled (fst (normalize53 m e)) (snd (normalize53 m e)) =
  ceil_scaled m e.
Proof.
  intros Hm. unfold normalize53.
  destruct (Z.ltb_spec m (2 ^ 53)); cbn [fst snd]; [reflexivity|].
  assert (m = 2 ^ 53) as -> by lia.
  rewrite <- ceil_scaled_double. reflexivity.
Qed.

Lemma half_odd (m : Z) : m = 2 * (m / 2) + (if Z.odd m then 1 else 0).
Proof. rewrite <- Zmod_odd. apply Z.div_mod. lia. Qed.

(** Rounding a quotient of 53 or 54 bits: the result is a finite number
    next to the quotient, and the quotient itself when it is exact. *)
Lemma binary_round_aux_wide (sx : bool) (mx ex : Z) (l : location) :
  2 ^ 52 <= mx < 2 ^ 54 -> -1074 <= ex <= 960 ->
  exists m e m1 e1,
    binary_round_aux prec emax sx mx ex l = S754_finite sx m e /\
    ceil_scaled (Z.pos m) e = ceil_scaled m1 e1 /\
    ((mx < 2 ^ 53 /\ e1 = ex /\ mx <= m1 <= mx + 1 /\
      (l = loc_Exact -> m1 = mx)) \/
     (2 ^ 53 <= mx /\ e1 = ex + 1 /\ mx - 1 <= 2 * m1 <= mx + 1)).
Proof.
  intros Hm He. rewrite binary_round_aux_eq.
  destruct (Z.lt_ge_cases mx (2 ^ 53)) as [Hlt|Hge].
  - unfold shr_fexp at 1, fexp, emin, prec, emax.
    rewrite (Zdigits2_unique mx 53) by lia.
    replace (Z.max (53 + ex - 53) (3 - 1024 - 53) - ex) with 0 by lia.
    cbn [shr]. rewrite shr_m_shr_record_of_loc, loc_of_shr_record_of_loc.
    destruct (round_nearest_even_bounds mx l) as [Hb Hex].
    set (m1 := round_nearest_even mx l) in *.
    rewrite second_shift by lia.
    exists (Z.to_pos (fst (normalize53 m1 ex))), (snd (normalize53 m1 ex)),
      m1, ex.
    split; [reflexivity|]. split.
    + rewrite Z2Pos.id; [apply ceil_scaled_normalize53; lia|].
      unfold normalize53. destruct (Z.ltb_spec m1 (2 ^ 53)); cbn [fst].
      * lia.
      * assert (m1 = 2 ^ 53) as -> by lia. reflexivity.
    + left. auto.
  - unfold shr_fexp at 1, fexp, emin, prec, emax.
    rewrite (Zdigits2_unique mx 54) by lia.
    replace (Z.max (54 + ex - 53) (3 - 1024 - 53) - ex) with 1 by lia.
    cbn [shr SpecFloat.iter_pos].
    assert (Hrec : exists r s, shr_record_of_loc mx l = Build_shr_record mx r s)
      by (destruct l as [|[]]; simpl; eauto).
    destruct Hrec as (r & s & ->).
    rewrite shr_1_nonneg by lia. cbn [shr_m].
    set (m1 := round_nearest_even (mx / 2) _).
    pose proof (half_odd mx) as Hhalf.
    assert (Hm1 : mx - 1 <= 2 * m1 <= mx + 1).
    { subst m1. destruct (Z.odd mx), (r || s); simpl;
        try destruct (Z.even (mx / 2)); lia. }
    rewrite second_shift by lia.
    exists (Z.to_pos (fst (normalize53 m1 (ex + 1)))),
      (snd (normalize53 m1 (ex + 1))), m1, (ex + 1).
    split; [reflexivity|]. split.
    + rewrite Z2Pos.id; [apply ceil_scaled_normalize53; lia|].
      unfold normalize53. destruct (Z.ltb_spec m1 (2 ^ 53)); cbn [fst].
      * lia.
      * assert (m1 = 2 ^ 53) as -> by lia. reflexivity.
    + right. auto.
Qed.

Lemma Zdigits2_lt (x k : Z) : 0 < x < 2 ^ k -> 0 < Zdigits2 x <= k.
Proof.
  intros [Hx Hk]. destruct (Zdigits2_bounds x Hx) as (Hd & Hlo & _).
  split; [exact Hd|].
  destruct (Z.le_gt_cases (Zdigits2 x) k) as [Hle|Hgt]; [exact Hle|].
  assert (2 ^ k <= 2 ^ (Zdigits2 x - 1)) by (apply Z.pow_le_mono_r; lia). lia.
Qed.

(** The quotient that the division hands to the rounding: [a] scaled by
    [2 ^ s] so that the quotient has 53 or 54 bits. *)
Lemma div_core (a b : Z) :
  0 < a < 2 ^ 52 -> 0 < b < 2 ^ 52 ->
  let s := 53 + Zdigits2 b - Zdigits2 a in
  SFdiv_core_binary prec emax a 0 b 0 =
  (a * 2 ^ s / b, - s, new_location b (a * 2 ^ s mod b)).
Proof.
  intros Ha Hb s.
  pose proof (Zdigits2_lt a 52 Ha) as Hda.
  pose proof (Zdigits2_lt b 52 Hb) as Hdb.
  unfold SFdiv_core_binary, fexp, emin, prec, emax. cbv zeta.
  replace (Z.min (Z.max (Zdigits2 a + 0 - (Zdigits2 b + 0) - 53)
                    (3 - 1024 - 53)) (0 - 0)) with (- s) by (subst s; lia).
  replace (0 - 0 - - s) with s by lia.
  assert (Hs : 0 < s) by (subst s; lia).
  destruct s as [|ps|ps] eqn:Es; try lia. rewrite <- Es.
  rewrite Z.shiftl_mul_pow2 by lia.
  unfold Z.div, Z.modulo.
  destruct (Z.div_eucl (a * 2 ^ s) b) as [q r]. reflexivity.
Qed.

Lemma new_location_exact (b : Z) : new_location b 0 = loc_Exact.
Proof.
  unfold new_location, new_location_even, new_location_odd.
  destruct (Z.even b); reflexivity.
Qed.

Lemma ceil_div_spec (a b : Z) :
  0 < b -> (ceil_div a b - 1) * b < a <= ceil_div a b * b.
Proof.
  intros Hb. unfold ceil_div.
  pose proof (Z.div_mod (- a) b) as H.
  pose proof (Z.mod_pos_bound (- a) b Hb). nia.
Qed.

Lemma ceil_bracket (m P N : Z) :
  0 < P -> (N - 1) * P < m <= N * P -> - (- m / P) = N.
Proof.
  intros HP Hm.
  rewrite <- (Z.div_unique (- m) P (- N) (N * P - m)); lia.
Qed.

Lemma quotient_bracket (a b P q r N : Z) :
  0 < b <= P -> a * P = q * b + r -> 0 <= r < b ->
  (N - 1) * b < a <= N * b ->
  (N - 1) * P < q /\ q <= N * P /\ (q = N * P -> r = 0) /\
  (N - 1) * P * b + P - b + 1 <= q * b.
Proof.
  intros Hb Hq Hr HN.
  assert (H1 : ((N - 1) * b + 1) * P <= a * P) by nia.
  assert (H2 : a * P <= N * b * P) by nia.
  assert (H3 : (N - 1) * P * b + P - b + 1 <= q * b) by nia.
  assert (H4 : q * b <= N * P * b) by nia.
  repeat split.
  - nia.
  - nia.
  - intros ->. nia.
  - exact H3.
Qed.

(** For sizes below [2 ^ 52], rounding the quotient to binary64 never
    moves it across an integer: [math.ceil(a / b)] is the integer ceiling. *)
Theorem ceil_truediv_exact (a b : Z) :
  0 <= a < 2 ^ 52 -> 0 < b < 2 ^ 52 ->
  ceil_truediv a b = Ok (ceil_div a b).
Proof.
  intros Ha Hb. unfold ceil_truediv, truediv.
  destruct (Z.eqb_spec b 0) as [|_]; [lia|].
  destruct (Z.eqb_spec a 0) as [->|Hne]; [reflexivity|].
  assert (Ha' : 0 < a < 2 ^ 52) by lia.
  rewrite (Z.abs_eq a), (Z.abs_eq b) by lia.
  pose proof (div_core a b Ha' Hb) as Hcore. cbv zeta in Hcore.
  rewrite Hcore. clear Hcore.
  pose proof (Zdigits2_lt a 52 Ha') as Hda.
  pose proof (Zdigits2_lt b 52 Hb) as Hdb.
  destruct (Zdigits2_bounds a) as (_ & Ha1 & Ha2); [lia|].
  destruct (Zdigits2_bounds b) as (_ & Hb1 & Hb2); [lia|].
  set (d1 := Zdigits2 a) in *. set (d2 := Zdigits2 b) in *.
  set (s := 53 + d2 - d1).
  assert (Hs : 2 <= s <= 104) by (subst s; lia).
  assert (HP : 2 ^ s = 2 * 2 ^ (s - 1)).
  { rewrite <- (Z.pow_succ_r 2 (s - 1)) by lia. f_equal. lia. }
  assert (HA : 2 ^ d1 = 2 * 2 ^ (d1 - 1)).
  { rewrite <- (Z.pow_succ_r 2 (d1 - 1)) by lia. f_equal. lia. }
  assert (HB : 2 ^ d2 = 2 * 2 ^ (d2 - 1)).
  { rewrite <- (Z.pow_succ_r 2 (d2 - 1)) by lia. f_equal. lia. }
  assert (HAP : 2 ^ (d1 - 1) * 2 ^ (s - 1) = 2 ^ 52 * 2 ^ (d2 - 1)).
  { rewrite <- !Z.pow_add_r by lia. f_equal. subst s. lia. }
  assert (HPB : 2 ^ d2 <= 2 ^ (s - 1))
    by (apply Z.pow_le_mono_r; subst s; lia).
  assert (HB0 : 0 < 2 ^ (d2 - 1)) by (apply Z.pow_pos_nonneg; lia).
  assert (HA0 : 0 < 2 ^ (d1 - 1)) by (apply Z.pow_pos_nonneg; lia).
  set (P := 2 ^ s) in *. set (P' := 2 ^ (s - 1)) in *.
  set (A1 := 2 ^ (d1 - 1)) in *. set (B1 := 2 ^ (d2 - 1)) in *.
  assert (Hlo : A1 * P <= a * P) by nia.
  assert (Hhi : a * P < 2 * A1 * P) by nia.
  set (q := a * P / b). set (r := a * P mod b).
  assert (Hqr : a * P = q * b + r)
    by (subst q r; rewrite (Z.mul_comm _ b); apply Z.div_mod; lia).
  assert (Hr : 0 <= r < b) by (apply Z.mod_pos_bound; lia).
  assert (Hq : 2 ^ 52 <= q < 2 ^ 54).
  { split.
    - apply Z.div_le_lower_bound; nia.
    - apply Z.div_lt_upper_bound; nia. }
  pose proof (ceil_div_spec a b ltac:(lia)) as HN.
  set (N := ceil_div a b) in *.
  destruct (quotient_bracket a b P q r N ltac:(lia) Hqr Hr HN)
    as (Q1 & Q2 & Q3 & Q4).
  destruct (binary_round_aux_wide (xorb (a <? 0) (b <? 0)) q (- s)
              (new_location b r) Hq ltac:(lia))
    as (m & e & m1 & e1 & Hround & Hceil & Hcases).
  rewrite Hround.
  destruct (Z.ltb_spec a 0), (Z.ltb_spec b 0); try lia.
  cbn [xorb bind ceil]. f_equal. rewrite Hceil.
  unfold ceil_scaled.
  destruct Hcases as [(_ & -> & Hm1 & Hex)|(_ & -> & Hm1)].
  - destruct (Z.leb_spec 0 (- s)); [lia|].
    replace (- - s) with s by lia. fold P.
    apply ceil_bracket; [lia|].
    destruct (Z.eq_dec r 0) as [Hr0|Hr0].
    + rewrite Hex by (rewrite Hr0; apply new_location_exact). lia.
    + assert (q <> N * P) by (intros Heq; apply Hr0, Q3, Heq). lia.
  - destruct (Z.leb_spec 0 (- s + 1)); [lia|].
    replace (- (- s + 1)) with (s - 1) by lia. fold P'.
    apply ceil_bracket; [lia|]. nia.
Qed.

(** The division itself never gives a NaN, so [math.ceil] of a quotient
    never raises [ValueError]. *)
Lemma iter_pos_invariant {A : Type} (f : A -> A) (P : A -> Prop) :
  (forall x, P x -> P (f x)) ->
  forall n x, P x -> P (SpecFloat.iter_pos f n x).
Proof.
  intros Hf. induction n as [n IH|n IH|]; intros x Hx; simpl; auto.
Qed.

Lemma shr_1_m_nonneg (mrs : shr_record) :
  0 <= shr_m mrs -> 0 <= shr_m (shr_1 mrs).
Proof.
  destruct mrs as [m r s]. intros Hm. simpl in Hm.
  rewrite shr_1_nonneg by exact Hm. simpl. apply Z.div_pos; lia.
Qed.

Lemma shr_fexp_m_nonneg (m e : Z) (l : location) :
  0 <= m -> 0 <= shr_m (shr_fexp prec emax m e l).1.
Proof.
  intros Hm. unfold shr_fexp, shr.
  destruct (fexp prec emax (Zdigits2 m + e) - e) as [|n|n]; simpl;
    rewrite ?shr_m_shr_record_of_loc; try exact Hm.
  apply (iter_pos_invariant shr_1 (fun mrs => 0 <= shr_m mrs));
    [apply shr_1_m_nonneg|].
  rewrite shr_m_shr_record_of_loc. exact Hm.
Qed.

Lemma binary_round_aux_not_nan (sx : bool) (mx ex : Z) (lx : location) :
  0 <= mx -> binary_round_aux prec emax sx mx ex lx <> S754_nan.
Proof.
  intros Hm. rewrite binary_round_aux_eq.
  pose proof (shr_fexp_m_nonneg mx ex lx Hm) as H1.
  destruct (shr_fexp prec emax mx ex lx) as [mrs' e']. simpl in H1.
  unfold after_rounding.
  pose proof (round_nearest_even_bounds (shr_m mrs')
                (loc_of_shr_record mrs')) as [Hr _].
  pose proof (shr_fexp_m_nonneg
                (round_nearest_even (shr_m mrs') (loc_of_shr_record mrs'))
                e' loc_Exact ltac:(lia)) as H2.
  destruct (shr_fexp prec emax _ e' loc_Exact) as [mrs'' e'']. simpl in H2.
  destruct (shr_m mrs'') as [|m|m]; try discriminate; [|lia].
  destruct (e'' <=? emax - prec); discriminate.
Qed.

Lemma div_core_nonneg (a b : Z) :
  0 < a -> 0 < b -> 0 <= (SFdiv_core_binary prec emax a 0 b 0).1.1.
Proof.
  intros Ha Hb. unfold SFdiv_core_binary. cbv zeta.
  set (s := 0 - 0 - _).
  set (m' := match s with Z0 => a | Zpos _ => Z.shiftl a s | Zneg _ => 0 end).
  assert (Hm' : 0 <= m').
  { subst m'. destruct s; [lia| |lia]. apply Z.shiftl_nonneg. lia. }
  pose proof (Z.div_pos m' b Hm' Hb) as Hq. unfold Z.div in Hq.
  destruct (Z.div_eucl m' b) as [q r]. exact Hq.
Qed.

Lemma ceil_truediv_not_ValueError (a b : Z) :
  ceil_truediv a b <> Raise ValueError.
Proof.
  unfold ceil_truediv, truediv.
  destruct (b =? 0) eqn:Eb; [discriminate|].
  destruct (a =? 0) eqn:Ea; [discriminate|].
  pose proof (div_core_nonneg (Z.abs a) (Z.abs b) ltac:(lia) ltac:(lia)) as Hq.
  destruct (SFdiv_core_binary prec emax (Z.abs a) 0 (Z.abs b) 0)
    as [[mz ez] lz]. simpl in Hq.
  pose proof (binary_round_aux_not_nan (xorb (a <? 0) (b <? 0)) mz ez lz Hq)
    as Hnan.
  destruct (binary_round_aux prec emax _ mz ez lz); simpl; congruence.
Qed.

End PyFloatFacts.

(** ** The partition plan *)

Section PartGeneratorFacts.

Import PyFloat PyFloatFacts.

Lemma tiles_total_size (ps : list Part) (from to : Z) :
  tiles ps from to -> total_size ps = to - from.
Proof.
  revert from. induction ps as [|p rest IH]; simpl; intros from H.
  - lia.
  - destruct H as (_ & _ & H). rewrite (IH _ H). lia.
Qed.

Lemma for_file_size_too_large (file_size : Z) :
  tb 5 < file_size -> for_file_size file_size = Raise ValueError.
Proof.
  intros H. unfold for_file_size.
  destruct (Z.gtb_spec file_size (tb 5)); [reflexivity|lia].
Qed.

(** On the supported sizes no call fails, and the part size settled on
    is within the limits and large enough for 10000 parts to hold the
    file. *)
Lemma for_file_size_supported (file_size : Z) :
  0 <= file_size <= tb 5 ->
  exists part_size,
    MIN_PART_SIZE <= part_size <= MAX_PART_SIZE /\
    file_size <= MAX_PARTS * part_size /\
    for_file_size file_size = Ok (plan file_size part_size).
Proof.
  intros Hs. unfold for_file_size.
  assert (Htb : tb 5 = 5 * 2 ^ 40) by reflexivity.
  assert (Hmb : mb 64 = 2 ^ 26) by reflexivity.
  assert (Hmin : MIN_PART_SIZE = 5 * 2 ^ 20) by reflexivity.
  assert (Hmax : MAX_PART_SIZE = 5 * 2 ^ 30) by reflexivity.
  assert (Hparts : MAX_PARTS = 10000) by reflexivity.
  destruct (Z.gtb_spec file_size (tb 5)) as [|_]; [lia|].
  rewrite ceil_truediv_exact by lia. cbn [bind].
  pose proof (ceil_div_spec file_size (mb 64) ltac:(lia)) as H64.
  destruct (Z.geb_spec (ceil_div file_size (mb 64)) MAX_PARTS) as [Hge|Hlt].
  - rewrite ceil_truediv_exact by lia. cbn [bind].
    pose proof (ceil_div_spec file_size MAX_PARTS ltac:(lia)) as Hc.
    set (c := ceil_div file_size MAX_PARTS) in *.
    destruct (Z.ltb_spec c MIN_PART_SIZE); [lia|].
    destruct (Z.gtb_spec c MAX_PART_SIZE); [lia|].
    exists c. split; [lia|]. split; [lia|].
    unfold plan. destruct (file_size mod c =? 0); reflexivity.
  - cbn [bind].
    destruct (Z.ltb_spec (mb 64) MIN_PART_SIZE); [lia|].
    destruct (Z.gtb_spec (mb 64) MAX_PART_SIZE); [lia|].
    exists (mb 64). split; [lia|]. split; [lia|].
    unfold plan. destruct (file_size mod mb 64 =? 0); reflexivity.
Qed.

Lemma iter_loop_fst_length (self : PartGenerator) (numbers : list Z) :
  forall off, length (iter_loop self numbers off).1 = length numbers.
Proof.
  induction numbers as [|n rest IH]; intros off; simpl; [reflexivity|].
  specialize (IH (off + initial_part_size self)).
  destruct (iter_loop self rest _) as [ps o]. simpl in *.
  rewrite IH. reflexivity.
Qed.

Lemma iter_loop_snd (self : PartGenerator) (numbers : list Z) :
  forall off,
    (iter_loop self numbers off).2 =
    off + initial_part_size self * Z.of_nat (length numbers).
Proof.
  induction numbers as [|n rest IH]; intros off; simpl; [lia|].
  specialize (IH (off + initial_part_size self)).
  destruct (iter_loop self rest _) as [ps o]. simpl in *. lia.
Qed.

Lemma iter_loop_lookup (self : PartGenerator) (numbers : list Z) :
  forall off (k : nat) (n : Z),
    numbers !! k = Some n ->
    (iter_loop self numbers off).1 !! k =
    Some (mkPart n (off + initial_part_size self * Z.of_nat k)
            (initial_part_size self)).
Proof.
  induction numbers as [|n0 rest IH]; intros off k n Hk; [discriminate|].
  simpl. specialize (IH (off + initial_part_size self)).
  destruct (iter_loop self rest _) as [ps o]. simpl in *.
  destruct k as [|k]; simpl in *.
  - inversion Hk. do 2 f_equal. lia.
  - rewrite (IH k n Hk). do 2 f_equal. lia.
Qed.

Lemma iter_loop_numbers (self : PartGenerator) (numbers : list Z) :
  forall off, number <$> (iter_loop self numbers off).1 = numbers.
Proof.
  induction numbers as [|n rest IH]; intros off; simpl; [reflexivity|].
  specialize (IH (off + initial_part_size self)).
  destruct (iter_loop self rest _) as [ps o]. simpl in *.
  f_equal. exact IH.
Qed.

Lemma iter_loop_tiles (self : PartGenerator) (numbers : list Z)
    (last : list Part) (to : Z) :
  0 < initial_part_size self ->
  forall off,
    tiles last (iter_loop self numbers off).2 to ->
    tiles ((iter_loop self numbers off).1 ++ last) off to.
Proof.
  intros Hpos. induction numbers as [|n rest IH]; intros off; simpl.
  - auto.
  - specialize (IH (off + initial_part_size self)).
    destruct (iter_loop self rest _) as [ps o]. simpl in *. auto.
Qed.

Lemma iter_eq (self : PartGenerator) :
  __iter__ self =
  (iter_loop self (range 1 (part_qty self)) 0).1 ++
  [mkPart (part_qty self) (iter_loop self (range 1 (part_qty self)) 0).2
     (final_part_size self)].
Proof. unfold __iter__. destruct (iter_loop self _ 0). reflexivity. Qed.

Lemma range_length (start stop : Z) :
  length (range start stop) = Z.to_nat (stop - start).
Proof. apply length_seqZ. Qed.

(** Indexed lookup agrees with iteration, for any plan. *)
Lemma getitem_iter (self : PartGenerator) (i : Z) :
  1 <= i <= part_qty self ->
  exists p, __getitem__ self i = Ok p /\ __iter__ self !! Z.to_nat (i - 1) = Some p.
Proof.
  intros Hi. rewrite iter_eq. unfold __getitem__.
  destruct (Z.leb_spec 1 i); [|lia].
  destruct (Z.ltb_spec i (part_qty self)) as [Hlt|Hge]; cbn [andb].
  - eexists. split; [reflexivity|].
    rewrite lookup_app_l
      by (rewrite iter_loop_fst_length, range_length; lia).
    rewrite (iter_loop_lookup self _ 0 _ i).
    + rewrite Z2Nat.id, Z.add_0_l by lia. reflexivity.
    + unfold range. rewrite lookup_seqZ_lt by lia. f_equal. lia.
  - destruct (Z.eqb_spec i (part_qty self)) as [->|]; [|lia].
    eexists. split; [reflexivity|].
    rewrite lookup_app_r
      by (rewrite iter_loop_fst_length, range_length; lia).
    rewrite iter_loop_fst_length, range_length, Nat.sub_diag.
    rewrite iter_loop_snd, range_length.
    rewrite Z2Nat.id, Z.add_0_l by lia. reflexivity.
Qed.

(** What the plan of a part size within the limits looks like. *)
Lemma plan_partition (file_size part_size : Z) :
  1 <= file_size -> 0 < part_size -> file_size <= MAX_PARTS * part_size ->
  let pg := plan file_size part_size in
  1 <= part_qty pg <= MAX_PARTS /\
  0 < initial_part_size pg /\ 0 < final_part_size pg /\
  initial_part_size pg * (part_qty pg - 1) + final_part_size pg = file_size.
Proof.
  intros Hs Hp Hmax. unfold plan, MAX_PARTS in *.
  pose proof (Z.div_mod file_size part_size ltac:(lia)) as Hdm.
  pose proof (Z.mod_pos_bound file_size part_size Hp) as Hm.
  set (q := file_size / part_size) in *.
  set (f := file_size mod part_size) in *.
  assert (Hq : 0 <= q) by (apply Z.div_pos; lia).
  destruct (Z.eqb_spec f 0) as [Hf|Hf]; cbn [part_qty initial_part_size
    final_part_size].
  - destruct (Z.eqb_spec q 1); nia.
  - destruct (Z.eqb_spec (q + 1) 1); nia.
Qed.

(** The plan of a size from 1 byte to 5 TiB: 1 to 10000 parts, numbered
    from 1, tiling the file. *)
Theorem for_file_size_partition (file_size : Z) :
  1 <= file_size <= tb 5 ->
  exists pg,
    for_file_size file_size = Ok pg /\
    1 <= part_qty pg <= 10000 /\
    total_size (__iter__ pg) = file_size /\
    tiles (__iter__ pg) 0 file_size /\
    number <$> __iter__ pg = seqZ 1 (part_qty pg).
Proof.
  intros Hs.
  destruct (for_file_size_supported file_size ltac:(lia))
    as (ps & Hps & Hmax & Heq).
  assert (Hpos : 0 < ps) by (unfold MIN_PART_SIZE, mb in Hps; lia).
  destruct (plan_partition file_size ps ltac:(lia) Hpos Hmax)
    as (Hqty & Hinit & Hfinal & Hsum).
  set (pg := plan file_size ps) in *.
  assert (Htiles : tiles (__iter__ pg) 0 file_size).
  { rewrite iter_eq. apply iter_loop_tiles; [exact Hinit|].
    rewrite iter_loop_snd, range_length, Z2Nat.id by lia.
    cbn [tiles offset size]. split; [reflexivity|].
    split; [exact Hfinal|]. lia. }
  exists pg. split; [exact Heq|]. split; [exact Hqty|].
  split; [rewrite (tiles_total_size _ _ _ Htiles); lia|].
  split; [exact Htiles|].
  rewrite iter_eq, fmap_app, iter_loop_numbers. unfold range.
  transitivity (seqZ 1 (part_qty pg - 1 + 1)); [|f_equal; lia].
  rewrite seqZ_app by lia. f_equal.
  change (seqZ (1 + (part_qty pg - 1)) 1) with [1 + (part_qty pg - 1)].
  simpl. f_equal. lia.
Qed.

End PartGeneratorFacts.

(** ** The accumulator *)

Section AccumulatorFacts.

Implicit Types (ds : list (option bytes)) (self : DandiETag).

Lemma filled_prefix_le ds : (filled_prefix ds <= length ds)%nat.
Proof. induction ds as [|[d|] ds IH]; simpl; lia. Qed.

Lemma filled_prefix_lookup_lt ds (i : nat) :
  (i < filled_prefix ds)%nat -> exists d, ds !! i = Some (Some d).
Proof.
  revert i. induction ds as [|[d|] ds IH]; simpl; intros i Hi; try lia.
  destruct i as [|i]; simpl; [eauto|]. apply IH. lia.
Qed.

Lemma filled_prefix_lookup ds :
  (filled_prefix ds < length ds)%nat -> ds !! filled_prefix ds = Some None.
Proof.
  induction ds as [|[d|] ds IH]; simpl; intros H; try lia.
  - apply IH. lia.
  - reflexivity.
Qed.

Lemma filled_prefix_None_ge ds (k : nat) :
  ds !! k = Some None -> (filled_prefix ds <= k)%nat.
Proof.
  intros Hk. destruct (Nat.le_gt_cases (filled_prefix ds) k) as [H|H];
    [exact H|].
  destruct (filled_prefix_lookup_lt ds k H) as [d Hd]. congruence.
Qed.

Lemma filled_prefix_insert ds (k : nat) (d : bytes) :
  (filled_prefix ds <= filled_prefix (<[k := Some d]> ds))%nat.
Proof.
  revert k. induction ds as [|[d0|] ds IH]; intros k; simpl; try lia.
  - destruct k as [|k]; simpl; [lia|]. specialize (IH k). lia.
Qed.

Lemma filled_prefix_all ds :
  filled_prefix ds = length ds <-> Forall is_Some ds.
Proof.
  induction ds as [|[d|] ds IH]; simpl.
  - split; [constructor|reflexivity].
  - split.
    + intros H. constructor; [eauto|]. apply IH. lia.
    + intros H. inversion H; subst. f_equal. apply IH. assumption.
  - split; [discriminate|].
    intros H. inversion H as [|? ? [? Hs] ?]. discriminate.
Qed.

Lemma py_index_lt {A : Type} (l : list A) (i : Z) (k : nat) :
  py_index l i = Ok k -> (k < length l)%nat.
Proof.
  unfold py_index.
  destruct (Z.leb_spec 0 i), (Z.ltb_spec i (Z.of_nat (length l)));
    cbn [andb]; try (intros [= <-]; lia);
    destruct (Z.leb_spec (- Z.of_nat (length l)) i), (Z.ltb_spec i 0);
    cbn [andb]; try discriminate; intros [= <-]; lia.
Qed.

Lemma py_index_nonneg {A : Type} (l : list A) (i : Z) :
  0 <= i < Z.of_nat (length l) -> py_index l i = Ok (Z.to_nat i).
Proof.
  intros H. unfold py_index.
  destruct (Z.leb_spec 0 i), (Z.ltb_spec i (Z.of_nat (length l))); try lia.
  reflexivity.
Qed.

Lemma py_index_negative {A : Type} (l : list A) (i : Z) :
  - Z.of_nat (length l) <= i < 0 ->
  py_index l i = Ok (Z.to_nat (Z.of_nat (length l) + i)).
Proof.
  intros H. unfold py_index.
  destruct (Z.leb_spec 0 i); [lia|]. cbn [andb].
  destruct (Z.leb_spec (- Z.of_nat (length l)) i), (Z.ltb_spec i 0); try lia.
  reflexivity.
Qed.

Lemma list_get_Ok {A : Type} (l : list A) (i : Z) (x : A) :
  list_get l i = Ok x <-> exists k, py_index l i = Ok k /\ l !! k = Some x.
Proof.
  unfold list_get. destruct (py_index l i) as [k|e]; cbn [bind].
  - destruct (l !! k) as [y|] eqn:E; split.
    + intros [= ->]. eauto.
    + intros (k' & [= <-] & E'). congruence.
    + discriminate.
    + intros (k' & [= <-] & E'). congruence.
  - split; [discriminate|]. intros (k & [=] & _).
Qed.

(** The loop of [_update_index] reaches the end of the filled prefix. *)
Lemma _update_index_loop_spec (fuel : nat) self :
  Z.of_nat (length (_md5_digests self)) = part_qty (_part_gen self) ->
  0 <= _next_index self <= Z.of_nat (filled_prefix (_md5_digests self)) ->
  Z.of_nat (filled_prefix (_md5_digests self)) - _next_index self
    <= Z.of_nat fuel ->
  _update_index_loop fuel self =
  (Ok tt,
   set_next_index self (Z.of_nat (filled_prefix (_md5_digests self)))).
Proof.
  revert self. induction fuel as [|fuel IH]; intros self Hlen Hnext Hfuel.
  - simpl. destruct self as [pg ds next]. unfold set_next_index.
    simpl in *. do 2 f_equal. lia.
  - pose proof (filled_prefix_le (_md5_digests self)) as Hle.
    simpl. unfold etag_part_qty, len, __len__.
    destruct (Z.ltb_spec (part_qty (_part_gen self)) 0); [lia|].
    destruct (Z.ltb_spec (_next_index self) (part_qty (_part_gen self)))
      as [Hlt|Hge].
    + unfold list_get. rewrite py_index_nonneg by lia. cbn [bind].
      destruct (Z.eq_dec (_next_index self)
                  (Z.of_nat (filled_prefix (_md5_digests self)))) as [He|Hne].
      * rewrite He, Nat2Z.id.
        rewrite filled_prefix_lookup by lia.
        destruct self as [pg ds next]. unfold set_next_index.
        simpl in *. do 2 f_equal. lia.
      * destruct (filled_prefix_lookup_lt (_md5_digests self)
                    (Z.to_nat (_next_index self)) ltac:(lia)) as [d ->].
        rewrite IH; cbn [set_next_index _md5_digests _part_gen _next_index];
          try lia.
        reflexivity.
    + destruct self as [pg ds next]. unfold set_next_index.
      simpl in *. do 2 f_equal. lia.
Qed.

(** The turns that [_update_index] allows its loop are all the loop can
    take: more of them change nothing. *)
Lemma _update_index_loop_fuel (fuel : nat) self (q : Z) :
  etag_part_qty self = Ok q ->
  (Z.to_nat (q - _next_index self) <= fuel)%nat ->
  _update_index_loop fuel self =
  _update_index_loop (Z.to_nat (q - _next_index self)) self.
Proof.
  revert self. induction fuel as [|fuel IH]; intros self Hq Hfuel.
  - replace (Z.to_nat (q - _next_index self)) with O by lia. reflexivity.
  - cbn [_update_index_loop]. rewrite Hq.
    destruct (Z.ltb_spec (_next_index self) q) as [Hlt|Hge].
    + destruct (Z.to_nat (q - _next_index self)) as [|k] eqn:Ek; [lia|].
      cbn [_update_index_loop]. rewrite Hq.
      destruct (Z.ltb_spec (_next_index self) q); [|lia].
      destruct (list_get (_md5_digests self) (_next_index self))
        as [[d|]|e]; try reflexivity.
      rewrite (IH (set_next_index self (_next_index self + 1)) Hq)
        by (cbn [set_next_index _next_index]; lia).
      cbn [set_next_index _next_index]. f_equal. lia.
    + replace (Z.to_nat (q - _next_index self)) with O by lia. reflexivity.
Qed.

Lemma _update_index_spec self :
  Z.of_nat (length (_md5_digests self)) = part_qty (_part_gen self) ->
  0 <= _next_index self <= Z.of_nat (filled_prefix (_md5_digests self)) ->
  _update_index self =
  (Ok tt,
   set_next_index self (Z.of_nat (filled_prefix (_md5_digests self)))).
Proof.
  intros Hlen Hnext. unfold _update_index, etag_part_qty, len, __len__.
  pose proof (filled_prefix_le (_md5_digests self)).
  destruct (Z.ltb_spec (part_qty (_part_gen self)) 0); [lia|].
  apply _update_index_loop_spec; lia.
Qed.

Lemma well_formed_qty self :
  well_formed self ->
  etag_part_qty self = Ok (Z.of_nat (length (_md5_digests self))).
Proof.
  intros [Hlen _]. unfold etag_part_qty, len, __len__.
  destruct (Z.ltb_spec (part_qty (_part_gen self)) 0); [lia|].
  congruence.
Qed.

Lemma well_formed_complete self :
  well_formed self ->
  complete self =
  Ok (Nat.eqb (filled_prefix (_md5_digests self))
        (length (_md5_digests self))).
Proof.
  intros Hwf. unfold complete. rewrite well_formed_qty by exact Hwf.
  destruct Hwf as [_ ->]. cbn [bind]. f_equal.
  destruct (Nat.eqb_spec (filled_prefix (_md5_digests self))
              (length (_md5_digests self))),
    (Z.eqb_spec (Z.of_nat (filled_prefix (_md5_digests self)))
       (Z.of_nat (length (_md5_digests self))));
    try reflexivity; lia.
Qed.

(** [add_digest] on an empty slot: the digest goes into the slot and
    [_next_index] moves to the end of the filled prefix. *)
Lemma add_digest_stores self (p : Part) (d : bytes) (k : nat) :
  well_formed self ->
  py_index (_md5_digests self) (number p - 1) = Ok k ->
  _md5_digests self !! k = Some None ->
  add_digest self p d =
  (Ok tt,
   mkDandiETag (_part_gen self) (<[k := Some d]> (_md5_digests self))
     (Z.of_nat (filled_prefix (<[k := Some d]> (_md5_digests self))))).
Proof.
  intros [Hlen Hnext] Hk Hslot. unfold add_digest.
  assert (Hget : list_get (_md5_digests self) (number p - 1) = Ok None)
    by (apply list_get_Ok; eauto).
  rewrite Hget. unfold list_set. rewrite Hk. cbn [bind].
  rewrite _update_index_spec;
    cbn [set_md5_digests _md5_digests _part_gen _next_index].
  - reflexivity.
  - rewrite length_insert. exact Hlen.
  - pose proof (filled_prefix_insert (_md5_digests self) k d). lia.
Qed.

Lemma add_digest_well_formed self (p : Part) (d : bytes) :
  well_formed self -> well_formed (add_digest self p d).2.
Proof.
  intros Hwf.
  destruct (list_get (_md5_digests self) (number p - 1)) as [[d0|]|e]
    eqn:Hget.
  - unfold add_digest. rewrite Hget. exact Hwf.
  - apply list_get_Ok in Hget as (k & Hk & Hslot).
    rewrite (add_digest_stores self p d k Hwf Hk Hslot).
    destruct Hwf as [Hlen _]. split; cbn; [|reflexivity].
    rewrite length_insert. exact Hlen.
  - unfold add_digest. rewrite Hget. exact Hwf.
Qed.

(** [add_next_digest] before completion: the digest goes into the slot
    at [_next_index]. *)
Lemma add_next_digest_stores self (d : bytes) :
  well_formed self ->
  complete self = Ok false ->
  let l := <[Z.to_nat (_next_index self) := Some d]> (_md5_digests self) in
  add_next_digest self d =
  (Ok tt, mkDandiETag (_part_gen self) l (Z.of_nat (filled_prefix l))).
Proof.
  intros Hwf Hc l. unfold add_next_digest. rewrite Hc.
  rewrite well_formed_complete in Hc by exact Hwf.
  destruct Hwf as [Hlen Hnext].
  pose proof (filled_prefix_le (_md5_digests self)) as Hle.
  destruct (Nat.eqb_spec (filled_prefix (_md5_digests self))
              (length (_md5_digests self))); [discriminate|].
  unfold list_set. rewrite py_index_nonneg by lia. cbn [bind].
  rewrite _update_index_spec;
    cbn [set_md5_digests _md5_digests _part_gen _next_index].
  - reflexivity.
  - rewrite length_insert. exact Hlen.
  - pose proof (filled_prefix_insert (_md5_digests self)
                  (Z.to_nat (_next_index self)) d). lia.
Qed.

Lemma add_next_digest_well_formed self (d : bytes) :
  well_formed self -> well_formed (add_next_digest self d).2.
Proof.
  intros Hwf.
  destruct (complete self) as [[|]|e] eqn:Hc.
  - unfold add_next_digest. rewrite Hc. exact Hwf.
  - rewrite (add_next_digest_stores self d Hwf Hc).
    destruct Hwf as [Hlen _]. split; cbn; [|reflexivity].
    rewrite length_insert. exact Hlen.
  - unfold add_next_digest. rewrite Hc. exact Hwf.
Qed.

Lemma update_well_formed (md5 : bytes -> bytes) self (block : bytes) :
  well_formed self -> well_formed (update md5 self block).2.
Proof.
  intros Hwf. unfold update.
  destruct (complete self) as [[|]|e]; try exact Hwf.
  apply add_next_digest_well_formed, Hwf.
Qed.

Lemma run_ops_well_formed (md5 : bytes -> bytes) (os : list op) self :
  well_formed self -> well_formed (run_ops md5 os self).
Proof.
  revert self. induction os as [|o os IH]; intros self Hwf; [exact Hwf|].
  apply IH. destruct o; simpl.
  - apply add_digest_well_formed, Hwf.
  - apply add_next_digest_well_formed, Hwf.
  - apply update_well_formed, Hwf.
Qed.

Lemma filled_prefix_replicate_None (n : nat) :
  filled_prefix (replicate n None) = O.
Proof. destruct n; reflexivity. Qed.

Lemma init_Ok (file_size : Z) (e0 : DandiETag) :
  __init__ file_size = Ok e0 ->
  exists pg,
    for_file_size file_size = Ok pg /\ 0 <= part_qty pg /\
    e0 = mkDandiETag pg (replicate (Z.to_nat (part_qty pg)) None) 0.
Proof.
  unfold __init__. destruct (for_file_size file_size) as [pg|e]; [|discriminate].
  cbn [bind]. unfold len, __len__.
  destruct (Z.ltb_spec (part_qty pg) 0); [discriminate|].
  cbn [bind]. intros [= <-]. eauto.
Qed.

Lemma init_well_formed (file_size : Z) (e0 : DandiETag) :
  __init__ file_size = Ok e0 -> well_formed e0.
Proof.
  intros (pg & _ & Hq & ->)%init_Ok. split; cbn.
  - rewrite length_replicate. lia.
  - rewrite filled_prefix_replicate_None. reflexivity.
Qed.

Lemma reachable_well_formed (md5 : bytes -> bytes) self :
  reachable md5 self -> well_formed self.
Proof.
  intros (fs & e0 & os & Hinit & ->).
  apply run_ops_well_formed, (init_well_formed fs), Hinit.
Qed.

Lemma _update_index_loop_digests (fuel : nat) self :
  _md5_digests (_update_index_loop fuel self).2 = _md5_digests self.
Proof.
  revert self. induction fuel as [|fuel IH]; intros self; [reflexivity|].
  simpl. destruct (etag_part_qty self) as [q|e]; [|reflexivity].
  destruct (_next_index self <? q); [|reflexivity].
  destruct (list_get (_md5_digests self) (_next_index self)) as [[d|]|e];
    try reflexivity.
  rewrite IH. reflexivity.
Qed.

Lemma _update_index_digests self :
  _md5_digests (_update_index self).2 = _md5_digests self.
Proof.
  unfold _update_index. destruct (etag_part_qty self); [|reflexivity].
  apply _update_index_loop_digests.
Qed.

(** *** Submitting every part, in any order *)

Lemma slots_of_length (f : Z -> bytes) (done : list Z) (n : Z) :
  length (slots_of f done n) = Z.to_nat n.
Proof. unfold slots_of. rewrite length_fmap. apply length_seqZ. Qed.

Lemma slots_of_lookup (f : Z -> bytes) (done : list Z) (n : Z) (j : nat) :
  Z.of_nat j < n ->
  slots_of f done n !! j =
  Some (if bool_decide (1 + Z.of_nat j ∈ done)
        then Some (f (1 + Z.of_nat j)) else None).
Proof.
  intros Hj. unfold slots_of.
  rewrite list_lookup_fmap, lookup_seqZ_lt by exact Hj. reflexivity.
Qed.

Lemma slots_of_ext (f : Z -> bytes) (done done' : list Z) (n : Z) :
  (forall k, k ∈ done <-> k ∈ done') ->
  slots_of f done n = slots_of f done' n.
Proof.
  intros H. unfold slots_of. apply list_fmap_ext. intros _ k _.
  rewrite (bool_decide_ext _ _ (H k)). reflexivity.
Qed.

Lemma slots_of_insert (f : Z -> bytes) (done : list Z) (n k : Z) :
  1 <= k <= n ->
  <[Z.to_nat (k - 1) := Some (f k)]> (slots_of f done n) =
  slots_of f (k :: done) n.
Proof.
  intros Hk. apply list_eq. intros j.
  rewrite list_lookup_insert, slots_of_length.
  destruct (Z.lt_ge_cases (Z.of_nat j) n) as [Hj|Hj].
  - rewrite !slots_of_lookup by exact Hj.
    destruct (decide (Z.to_nat (k - 1) = j /\ (Z.to_nat (k - 1) < Z.to_nat n)%nat))
      as [[<- _]|Hne].
    + replace (1 + Z.of_nat (Z.to_nat (k - 1))) with k by lia.
      rewrite bool_decide_eq_true_2 by (apply elem_of_cons; auto).
      reflexivity.
    + f_equal. rewrite (bool_decide_ext (1 + Z.of_nat j ∈ k :: done)
                          (1 + Z.of_nat j ∈ done)); [reflexivity|].
      rewrite elem_of_cons. split; [|auto]. intros [Heq|H]; [|exact H].
      exfalso. apply Hne. lia.
  - destruct (decide _) as [[<- _]|_]; [lia|].
    unfold slots_of. rewrite !list_lookup_fmap, !lookup_seqZ_ge by lia.
    reflexivity.
Qed.

Lemma slots_of_nil (f : Z -> bytes) (n : Z) :
  slots_of f [] n = replicate (Z.to_nat n) None.
Proof.
  apply list_eq. intros j.
  destruct (Z.lt_ge_cases (Z.of_nat j) n) as [Hj|Hj].
  - rewrite slots_of_lookup, lookup_replicate_2 by lia. reflexivity.
  - rewrite (proj1 (lookup_replicate_None _ _ _)) by lia.
    unfold slots_of. rewrite list_lookup_fmap, lookup_seqZ_ge by lia.
    reflexivity.
Qed.

Lemma slots_of_all (f : Z -> bytes) (done : list Z) (n : Z) :
  (forall k, 1 <= k <= n -> k ∈ done) ->
  slots_of f done n = Some <$> (f <$> seqZ 1 n).
Proof.
  intros H. unfold slots_of. rewrite <- list_fmap_compose.
  apply list_fmap_ext. intros j k [-> Hj]%lookup_seqZ. simpl.
  rewrite bool_decide_eq_true_2 by (apply H; lia). reflexivity.
Qed.

Lemma submit_all_spec (f : Z -> bytes) (n : Z) (ps : list Part) :
  forall self (done : list Z),
    well_formed self ->
    part_qty (_part_gen self) = n ->
    _md5_digests self = slots_of f done n ->
    NoDup (number <$> ps) ->
    (forall k, k ∈ number <$> ps -> 1 <= k <= n /\ k ∉ done) ->
    exists e,
      submit_all f ps self = (Ok tt, e) /\
      well_formed e /\
      _part_gen e = _part_gen self /\
      _md5_digests e = slots_of f ((number <$> ps) ++ done) n.
Proof.
  induction ps as [|p ps IH]; intros self done Hwf Hn Hds Hnd Hin.
  - exists self. simpl. auto.
  - rewrite fmap_cons in Hnd, Hin. apply NoDup_cons in Hnd as [Hp Hnd].
    destruct (Hin (number p) ltac:(apply elem_of_cons; auto))
      as [Hrange Hfresh].
    assert (Hlen : length (_md5_digests self) = Z.to_nat n)
      by (rewrite Hds; apply slots_of_length).
    assert (Hk : py_index (_md5_digests self) (number p - 1)
                 = Ok (Z.to_nat (number p - 1)))
      by (apply py_index_nonneg; lia).
    assert (Hslot : _md5_digests self !! Z.to_nat (number p - 1) = Some None).
    { rewrite Hds, slots_of_lookup by lia.
      replace (1 + Z.of_nat (Z.to_nat (number p - 1))) with (number p) by lia.
      rewrite bool_decide_eq_false_2 by exact Hfresh. reflexivity. }
    pose proof (add_digest_stores self p (f (number p)) _ Hwf Hk Hslot)
      as Hadd.
    pose proof (add_digest_well_formed self p (f (number p)) Hwf) as Hwf'.
    rewrite Hadd in Hwf'. cbn [snd] in Hwf'.
    cbn [submit_all]. rewrite Hadd.
    rewrite Hds, slots_of_insert in * by lia.
    edestruct (IH _ (number p :: done) Hwf') as (e & He & Hwe & Hpg & Hde);
      [exact Hn|reflexivity|exact Hnd| |].
    + intros k Hk'. destruct (Hin k ltac:(apply elem_of_cons; auto))
        as [Hr Hf]. split; [exact Hr|].
      rewrite not_elem_of_cons. split; [|exact Hf].
      intros ->. contradiction.
    + exists e. split; [exact He|]. split; [exact Hwe|].
      split; [exact Hpg|]. rewrite Hde. apply slots_of_ext. intros k.
      rewrite fmap_cons.
      repeat (rewrite elem_of_app || rewrite elem_of_cons). tauto.
Qed.

Lemma concat_digests_Some (l : list bytes) (blob : bytes) :
  concat_digests (Some <$> l) blob = Ok (blob ++ concat l).
Proof.
  revert blob. induction l as [|d l IH]; intros blob; simpl.
  - rewrite app_nil_r. reflexivity.
  - rewrite IH, <- app_assoc. reflexivity.
Qed.

Lemma filled_prefix_Some (l : list bytes) :
  filled_prefix (Some <$> l) = length l.
Proof.
  induction l as [|d l IH]; [reflexivity|].
  rewrite fmap_cons. simpl. rewrite IH. reflexivity.
Qed.

(** [as_str] once every slot is filled. *)
Lemma as_str_complete (md5 : bytes -> bytes) self (l : list bytes) :
  well_formed self ->
  _md5_digests self = Some <$> l ->
  as_str md5 self =
  Ok (hex (md5 (concat l)) ++ "-" ++ str_of_int (Z.of_nat (length l)))%string.
Proof.
  intros Hwf Hds. unfold as_str.
  rewrite well_formed_complete by exact Hwf.
  rewrite Hds, filled_prefix_Some, length_fmap, Nat.eqb_refl. cbn [bind negb].
  rewrite concat_digests_Some. reflexivity.
Qed.

Lemma submit_permutation (f : Z -> bytes) (file_size : Z) (e0 : DandiETag)
    (ps : list Part) :
  __init__ file_size = Ok e0 ->
  number <$> ps ≡ₚ seqZ 1 (part_qty (_part_gen e0)) ->
  exists e,
    submit_all f ps e0 = (Ok tt, e) /\ well_formed e /\
    _md5_digests e = Some <$> (f <$> seqZ 1 (part_qty (_part_gen e0))).
Proof.
  intros Hinit Hperm. pose proof (init_well_formed _ _ Hinit) as Hwf.
  apply init_Ok in Hinit as (pg & _ & Hq & ->). cbn [_part_gen] in *.
  destruct (submit_all_spec f (part_qty pg) ps _ [] Hwf eq_refl)
    as (e & He & Hwe & _ & Hde).
  - cbn [_md5_digests]. symmetry. apply slots_of_nil.
  - rewrite Hperm. apply NoDup_seqZ.
  - intros k Hk. rewrite Hperm, elem_of_seqZ in Hk.
    split; [lia|]. apply not_elem_of_nil.
  - exists e. split; [exact He|]. split; [exact Hwe|].
    rewrite Hde. apply slots_of_all. intros k Hk.
    rewrite elem_of_app, Hperm, elem_of_seqZ. left. lia.
Qed.

(** *** The text of the ETag *)

Lemma string_length_app (a b : string) :
  String.length (a ++ b) = (String.length a + String.length b)%nat.
Proof. induction a as [|c a IH]; simpl; congruence. Qed.

Lemma hex_length (b : bytes) : String.length (hex b) = (2 * length b)%nat.
Proof. induction b as [|x b IH]; simpl; [reflexivity|]. rewrite IH. lia. Qed.

Lemma is_hex_lower_hex_digit (n : N) : is_hex_lower (hex_digit n) = true.
Proof.
  destruct n as [|p]; [reflexivity|].
  do 4 (destruct p as [p|p|]; try reflexivity).
Qed.

Lemma match_hex_hex (b : bytes) (t : string) :
  match_hex (2 * length b) (hex b ++ t) = Some t.
Proof.
  induction b as [|x b IH]; [reflexivity|].
  replace (2 * length (x :: b))%nat with (S (S (2 * length b)))
    by (simpl; lia).
  cbn [hex append match_hex]. rewrite !is_hex_lower_hex_digit. exact IH.
Qed.

Lemma decimal_ok_upto_10000 : forallb decimal_ok (seqZ 0 10001) = true.
Proof. vm_compute. reflexivity. Qed.

Lemma decimal_ok_le (n : Z) : 0 <= n <= 10000 -> decimal_ok n = true.
Proof.
  intros Hn. apply (proj1 (forallb_forall decimal_ok (seqZ 0 10001))
                      decimal_ok_upto_10000).
  apply list_elem_of_In, elem_of_seqZ. lia.
Qed.

(** The text that [as_str] builds matches [REGEX] and is at most
    [MAX_STR_LENGTH] long, for a digest of 16 bytes and up to 10000
    parts. *)
Lemma etag_text (digest : bytes) (n : Z) :
  length digest = 16%nat -> 0 <= n <= 10000 ->
  let s := (hex digest ++ "-" ++ str_of_int n)%string in
  fullmatch_REGEX s = true /\ (String.length s <= MAX_STR_LENGTH)%nat.
Proof.
  intros Hd Hn s. pose proof (decimal_ok_le n Hn) as Hok.
  unfold decimal_ok in Hok. cbv zeta in Hok.
  apply andb_prop in Hok as [Hok H5]. apply andb_prop in Hok as [Hdig H1].
  split.
  - unfold fullmatch_REGEX. subst s.
    change 32%nat with (2 * 16)%nat. rewrite <- Hd, match_hex_hex.
    cbn [append]. rewrite Hdig, H1, H5. reflexivity.
  - subst s. rewrite string_length_app, hex_length, Hd.
    cbn [append String.length]. apply Nat.leb_le in H5.
    unfold MAX_STR_LENGTH. lia.
Qed.

(** *** The number of parts of an accumulator *)

Lemma for_file_size_Ok (file_size : Z) (pg : PartGenerator) :
  for_file_size file_size = Ok pg ->
  exists part_size,
    MIN_PART_SIZE <= part_size <= MAX_PART_SIZE /\
    pg = plan file_size part_size.
Proof.
  assert (Hmin : MIN_PART_SIZE = 5 * 2 ^ 20) by reflexivity.
  assert (Hmax : MAX_PART_SIZE = 5 * 2 ^ 30) by reflexivity.
  assert (Hplan : forall c,
    (let part_size := if c <? MIN_PART_SIZE then MIN_PART_SIZE else c in
     let part_size :=
       if part_size >? MAX_PART_SIZE then MAX_PART_SIZE else part_size in
     let part_qty := file_size / part_size in
     let final_part_size := file_size mod part_size in
     let '(part_qty, final_part_size) :=
       if final_part_size =? 0 then (part_qty, part_size)
       else (part_qty + 1, final_part_size) in
     let part_size := if part_qty =? 1 then final_part_size else part_size in
     Ok (mkPartGenerator part_qty part_size final_part_size)) = Ok pg ->
    exists part_size,
      MIN_PART_SIZE <= part_size <= MAX_PART_SIZE /\
      pg = plan file_size part_size).
  { intros c. cbv zeta.
    set (ps := if (if c <? MIN_PART_SIZE then MIN_PART_SIZE else c)
                    >? MAX_PART_SIZE
               then MAX_PART_SIZE
               else if c <? MIN_PART_SIZE then MIN_PART_SIZE else c).
    intros H. exists ps. split.
    - clear H. subst ps.
      destruct (Z.ltb_spec c MIN_PART_SIZE);
        [destruct (Z.gtb_spec MIN_PART_SIZE MAX_PART_SIZE)
        |destruct (Z.gtb_spec c MAX_PART_SIZE)]; lia.
    - unfold plan. destruct (file_size mod ps =? 0); congruence. }
  unfold for_file_size.
  destruct (file_size >? tb 5); [discriminate|].
  destruct (PyFloat.ceil_truediv file_size (mb 64)) as [n|e];
    [|discriminate].
  cbn [bind]. destruct (n >=? MAX_PARTS).
  - destruct (PyFloat.ceil_truediv file_size MAX_PARTS) as [c|e];
      [|discriminate].
    cbn [bind]. apply Hplan.
  - cbn [bind]. apply Hplan.
Qed.

Lemma plan_qty_le (file_size part_size : Z) :
  0 < part_size -> file_size <= MAX_PARTS * part_size ->
  part_qty (plan file_size part_size) <= MAX_PARTS.
Proof.
  intros Hp Hmax. unfold plan, MAX_PARTS in *.
  pose proof (Z.div_mod file_size part_size ltac:(lia)) as Hdm.
  pose proof (Z.mod_pos_bound file_size part_size Hp) as Hm.
  set (q := file_size / part_size) in *.
  set (f := file_size mod part_size) in *.
  destruct (Z.eqb_spec f 0); cbn [part_qty]; nia.
Qed.

Lemma for_file_size_qty_le (file_size : Z) (pg : PartGenerator) :
  for_file_size file_size = Ok pg -> part_qty pg <= 10000.
Proof.
  intros H.
  assert (Hmin : MIN_PART_SIZE = 5 * 2 ^ 20) by reflexivity.
  destruct (Z.lt_ge_cases file_size 0) as [Hneg|Hpos].
  - apply for_file_size_Ok in H as (ps & Hps & ->).
    apply plan_qty_le; unfold MAX_PARTS; lia.
  - destruct (Z.le_gt_cases file_size (tb 5)) as [Hle|Hgt].
    + destruct (for_file_size_supported file_size ltac:(lia))
        as (ps & Hps & Hmax & Heq).
      rewrite Heq in H. injection H as <-.
      apply plan_qty_le; [lia|exact Hmax].
    + rewrite for_file_size_too_large in H by exact Hgt. discriminate.
Qed.

Lemma _update_index_loop_part_gen (fuel : nat) self :
  _part_gen (_update_index_loop fuel self).2 = _part_gen self.
Proof.
  revert self. induction fuel as [|fuel IH]; intros self; [reflexivity|].
  simpl. destruct (etag_part_qty self) as [q|e]; [|reflexivity].
  destruct (_next_index self <? q); [|reflexivity].
  destruct (list_get (_md5_digests self) (_next_index self)) as [[d|]|e];
    try reflexivity.
  rewrite IH. reflexivity.
Qed.

Lemma _update_index_part_gen self :
  _part_gen (_update_index self).2 = _part_gen self.
Proof.
  unfold _update_index. destruct (etag_part_qty self); [|reflexivity].
  apply _update_index_loop_part_gen.
Qed.

Lemma add_digest_part_gen self (p : Part) (d : bytes) :
  _part_gen (add_digest self p d).2 = _part_gen self.
Proof.
  unfold add_digest.
  destruct (list_get (_md5_digests self) (number p - 1)) as [[d0|]|e];
    try reflexivity.
  destruct (list_set (_md5_digests self) (number p - 1) (Some d)) as [l|e];
    [|reflexivity].
  rewrite _update_index_part_gen. reflexivity.
Qed.

Lemma add_next_digest_part_gen self (d : bytes) :
  _part_gen (add_next_digest self d).2 = _part_gen self.
Proof.
  unfold add_next_digest. destruct (complete self) as [[|]|e];
    try reflexivity.
  destruct (list_set (_md5_digests self) (_next_index self) (Some d))
    as [l|e]; [|reflexivity].
  rewrite _update_index_part_gen. reflexivity.
Qed.

Lemma run_ops_part_gen (md5 : bytes -> bytes) (os : list op) self :
  _part_gen (run_ops md5 os self) = _part_gen self.
Proof.
  revert self. induction os as [|o os IH]; intros self; [reflexivity|].
  change (run_ops md5 (o :: os) self)
    with (run_ops md5 os (run_op md5 o self).2).
  rewrite IH. destruct o; simpl.
  - apply add_digest_part_gen.
  - apply add_next_digest_part_gen.
  - unfold update. destruct (complete self) as [[|]|e]; try reflexivity.
    apply add_next_digest_part_gen.
Qed.

Lemma reachable_count (md5 : bytes -> bytes) self :
  reachable md5 self ->
  0 <= Z.of_nat (length (_md5_digests self)) <= 10000.
Proof.
  intros Hr. pose proof (reachable_well_formed md5 self Hr) as [Hlen _].
  destruct Hr as (fs & e0 & os & Hinit & ->).
  rewrite Hlen, run_ops_part_gen.
  apply init_Ok in Hinit as (pg & Hpg & _ & ->). cbn [_part_gen].
  pose proof (for_file_size_qty_le fs pg Hpg). rewrite run_ops_part_gen in Hlen.
  cbn [_part_gen] in Hlen. lia.
Qed.

Lemma Forall_is_Some_fmap (ds : list (option bytes)) :
  Forall is_Some ds -> exists l : list bytes, ds = Some <$> l.
Proof.
  induction 1 as [|o ds [d ->] _ (l & ->)].
  - exists []. reflexivity.
  - exists (d :: l). reflexivity.
Qed.

End AccumulatorFacts.

(** * The claims of the specification *)

Section Claims.

Import PyFloat PyFloatFacts.

(** C1 — the plan of every size from 0 to 5 TiB has parts that sum to the
    size, 1 to 10000 of them, tiling the file in ascending order.  The
    code does so from 1 byte on ([for_file_size_partition]); for the
    empty file it does not: [for_file_size 0] is a plan of 0 parts whose
    iteration yields one part, numbered 0, of 64 MiB, and [from_file] of
    an empty file raises. *)
Theorem for_file_size_zero_breaks_partition :
  for_file_size 0 = Ok (mkPartGenerator 0 (mb 64) (mb 64)) /\
  __iter__ (mkPartGenerator 0 (mb 64) (mb 64)) = [mkPart 0 0 (mb 64)] /\
  total_size (__iter__ (mkPartGenerator 0 (mb 64) (mb 64))) = 67108864 /\
  ~ tiles (__iter__ (mkPartGenerator 0 (mb 64) (mb 64))) 0 0 /\
  forall md5, from_file md5 [] = Raise RuntimeError.
Proof.
  split; [reflexivity|]. split; [reflexivity|]. split; [reflexivity|].
  split; [|intros md5; reflexivity].
  cbv. intros (_ & _ & H). discriminate H.
Qed.

(** C6 — [for_file_size] raises its [ValueError] for every size above
    5 TiB, never for a size of at most 5 TiB, and gives a plan for every
    size from 0 to 5 TiB. *)
Theorem for_file_size_size_limit (file_size : Z) :
  (tb 5 < file_size -> for_file_size file_size = Raise ValueError) /\
  (file_size <= tb 5 -> for_file_size file_size <> Raise ValueError) /\
  (0 <= file_size <= tb 5 -> exists pg, for_file_size file_size = Ok pg).
Proof.
  split; [apply for_file_size_too_large|]. split.
  - intros Hle. unfold for_file_size.
    destruct (Z.gtb_spec file_size (tb 5)); [lia|].
    pose proof (ceil_truediv_not_ValueError file_size (mb 64)) as H1.
    destruct (ceil_truediv file_size (mb 64)) as [n|e]; cbn [bind];
      [|congruence].
    pose proof (ceil_truediv_not_ValueError file_size MAX_PARTS) as H2.
    destruct (n >=? MAX_PARTS);
      [destruct (ceil_truediv file_size MAX_PARTS) as [c|e]; cbn [bind];
       [|congruence]|cbn [bind]];
      match goal with
      | |- context [if ?c then (_, _) else (_, _)] => destruct c
      end; discriminate.
  - intros Hs. destruct (for_file_size_supported file_size Hs)
      as (ps & _ & _ & ->). eauto.
Qed.

Lemma for_file_size_size_limit_witness :
  for_file_size (tb 5 + 1) = Raise ValueError /\
  for_file_size (tb 5) <> Raise ValueError /\
  exists pg, for_file_size 1 = Ok pg.
Proof.
  split; [|split].
  - apply (proj1 (for_file_size_size_limit (tb 5 + 1))). unfold tb. lia.
  - apply (proj1 (proj2 (for_file_size_size_limit (tb 5)))). lia.
  - apply (proj2 (proj2 (for_file_size_size_limit 1))). unfold tb. lia.
Defined.

(** C7, as the specification has it — for size 0 the part size is clamped
    to 5 MiB and the plan has 0 parts and that final size.  The code gives
    no such plan. *)
Lemma for_file_size_zero_not_5MiB :
  ~ exists pg,
      for_file_size 0 = Ok pg /\ part_qty pg = 0 /\
      final_part_size pg = mb 5.
Proof. intros (pg & [= <-] & _ & H). discriminate H. Qed.

(** C7, amended — for size 0 the part size stays at the default 64 MiB
    (0 parts of 64 MiB are fewer than 10000, and 64 MiB is within the
    limits, so nothing is clamped); [divmod(0, 64 MiB)] is [(0, 0)]; the
    branch of a remainder 0 makes the final size the part size and leaves
    the count at 0, which is not 1, so nothing is collapsed: a plan of 0
    parts with final size 64 MiB. *)
Theorem for_file_size_zero :
  ceil_truediv 0 (mb 64) = Ok 0 /\
  (0 >=? MAX_PARTS) = false /\
  (mb 64 <? MIN_PART_SIZE) = false /\
  (mb 64 >? MAX_PART_SIZE) = false /\
  0 / mb 64 = 0 /\ 0 mod mb 64 = 0 /\
  (0 =? 1) = false /\
  for_file_size 0 = Ok (mkPartGenerator 0 (mb 64) (mb 64)) /\
  mb 64 <> 0.
Proof. repeat (split; [reflexivity|]). discriminate. Qed.

(** C8 — for a plan of a supported size and an index [i] from 1 to the
    count, [plan[i]] is the [i]-th part that iteration yields. *)
Theorem getitem_agrees_with_iter (file_size : Z) (pg : PartGenerator)
    (i : Z) :
  for_file_size file_size = Ok pg ->
  1 <= i <= part_qty pg ->
  exists p, __getitem__ pg i = Ok p /\ __iter__ pg !! Z.to_nat (i - 1) = Some p.
Proof. intros _ Hi. apply getitem_iter, Hi. Qed.

Lemma getitem_agrees_with_iter_witness :
  exists p,
    __getitem__ (mkPartGenerator 3 (mb 64) (mb 2)) 2 = Ok p /\
    __iter__ (mkPartGenerator 3 (mb 64) (mb 2)) !! Z.to_nat (2 - 1) = Some p.
Proof.
  apply (getitem_agrees_with_iter (mb 130)); [reflexivity|].
  cbn [part_qty]. lia.
Defined.

(** C9 — the accumulator of an empty file has no slot and is complete
    from the start, and [as_str] gives the hexadecimal MD5 of the empty
    bytes followed by [-0]. *)
Theorem empty_file_etag (md5 : bytes -> bytes) :
  exists e0,
    __init__ 0 = Ok e0 /\ _md5_digests e0 = [] /\ complete e0 = Ok true /\
    as_str md5 e0 = Ok (hex (md5 []) ++ "-0")%string.
Proof. eexists. repeat split; reflexivity. Qed.

(** C3 — in every accumulator built by [DandiETag(size)] and used through
    any calls of [add_digest], [add_next_digest] and [update], rejected
    ones included, [_next_index] is the number of slots filled without a
    gap from slot 0 (every slot below it is filled, and the slot at it,
    if there is one, is empty), there is one slot per part, and
    [complete] is true exactly when every slot holds a digest. *)
Theorem reachable_next_index (md5 : bytes -> bytes) (self : DandiETag) :
  reachable md5 self ->
  _next_index self = Z.of_nat (filled_prefix (_md5_digests self)) /\
  Z.of_nat (length (_md5_digests self)) = part_qty (_part_gen self) /\
  (forall i : nat,
      Z.of_nat i < _next_index self -> is_Some (_md5_digests self !! i)) /\
  (_next_index self < part_qty (_part_gen self) ->
   _md5_digests self !! Z.to_nat (_next_index self) = Some None) /\
  (exists c, complete self = Ok c) /\
  (complete self = Ok true <-> Forall is_Some (_md5_digests self)).
Proof.
  intros Hwf%reachable_well_formed.
  pose proof (well_formed_complete self Hwf) as Hc.
  destruct Hwf as [Hlen Hnext].
  split; [exact Hnext|]. split; [exact Hlen|]. split.
  { intros i Hi.
    destruct (filled_prefix_lookup_lt (_md5_digests self) i ltac:(lia))
      as [d ->]. eauto. }
  split.
  { intros Hlt. rewrite Hnext, Nat2Z.id. apply filled_prefix_lookup. lia. }
  split; [eauto|].
  rewrite Hc, <- filled_prefix_all.
  destruct (Nat.eqb_spec (filled_prefix (_md5_digests self))
              (length (_md5_digests self))); split; congruence.
Qed.

Lemma reachable_next_index_witness :
  let self :=
    run_ops constant_digest
      [AddDigest (mkPart 3 (mb 128) (mb 2)) [Byte.x03];
       AddDigest (mkPart 3 (mb 128) (mb 2)) [Byte.x03];
       AddNextDigest [Byte.x01];
       AddDigest (mkPart 7 0 0) []] etag_130MiB in
  _next_index self = Z.of_nat (filled_prefix (_md5_digests self)) /\
  Z.of_nat (length (_md5_digests self)) = part_qty (_part_gen self) /\
  (forall i : nat,
      Z.of_nat i < _next_index self -> is_Some (_md5_digests self !! i)) /\
  (_next_index self < part_qty (_part_gen self) ->
   _md5_digests self !! Z.to_nat (_next_index self) = Some None) /\
  (exists c, complete self = Ok c) /\
  (complete self = Ok true <-> Forall is_Some (_md5_digests self)).
Proof.
  intros self. apply (reachable_next_index constant_digest self).
  exists (mb 130), etag_130MiB. eexists. split; reflexivity.
Defined.

(** C4 — [add_digest] for a part whose slot holds a digest raises the
    [RuntimeError] of a digest submitted twice, whatever the bytes, and
    leaves the accumulator as it was; so does a second [add_digest] for
    the part of a first one that went through. *)
Theorem add_digest_twice (self : DandiETag) (p : Part) :
  (forall d0 d,
      list_get (_md5_digests self) (number p - 1) = Ok (Some d0) ->
      add_digest self p d = (Raise RuntimeError, self)) /\
  (forall d d' self',
      add_digest self p d = (Ok tt, self') ->
      add_digest self' p d' = (Raise RuntimeError, self')).
Proof.
  split.
  - intros d0 d Hget. unfold add_digest. rewrite Hget. reflexivity.
  - intros d d' self' Hadd. unfold add_digest in Hadd.
    destruct (list_get (_md5_digests self) (number p - 1)) as [[d0|]|e]
      eqn:Hget; try discriminate.
    apply list_get_Ok in Hget as (k & Hk & Hslot).
    unfold list_set in Hadd. rewrite Hk in Hadd. cbn [bind] in Hadd.
    assert (Hds : _md5_digests self' = <[k := Some d]> (_md5_digests self)).
    { replace self' with
        (_update_index
           (set_md5_digests self (<[k := Some d]> (_md5_digests self)))).2
        by (rewrite Hadd; reflexivity).
      apply _update_index_digests. }
    assert (Hget' : list_get (_md5_digests self') (number p - 1)
                    = Ok (Some d)).
    { apply list_get_Ok. exists k. rewrite Hds. split.
      - unfold py_index in *. rewrite length_insert. exact Hk.
      - apply list_lookup_insert_eq. apply (py_index_lt _ _ _ Hk). }
    unfold add_digest. rewrite Hget'. reflexivity.
Qed.

Lemma add_digest_twice_witness :
  add_digest
    (mkDandiETag (mkPartGenerator 3 (mb 64) (mb 2))
       [None; Some [Byte.x02]; None] 0)
    (mkPart 2 (mb 64) (mb 64)) [Byte.x02]
  = (Raise RuntimeError,
     mkDandiETag (mkPartGenerator 3 (mb 64) (mb 2))
       [None; Some [Byte.x02]; None] 0) /\
  add_digest
    (mkDandiETag (mkPartGenerator 3 (mb 64) (mb 2))
       [None; Some [Byte.x02]; None] 0)
    (mkPart 2 (mb 64) (mb 64)) [Byte.x02]
  = (Raise RuntimeError,
     mkDandiETag (mkPartGenerator 3 (mb 64) (mb 2))
       [None; Some [Byte.x02]; None] 0).
Proof.
  split.
  - apply (proj1 (add_digest_twice _ (mkPart 2 (mb 64) (mb 64)))
             [Byte.x02] [Byte.x02]).
    reflexivity.
  - apply (proj2 (add_digest_twice etag_130MiB (mkPart 2 (mb 64) (mb 64)))
             [Byte.x02] [Byte.x02]).
    reflexivity.
Defined.

(** C10 — [add_digest] checks no range: on an accumulator in use whose
    last slot is empty, a part numbered 0 raises nothing and its digest
    goes into the last slot (index [-1]). *)
Theorem add_digest_part_zero (md5 : bytes -> bytes) (self : DandiETag)
    (ds : list (option bytes)) (p : Part) (d : bytes) :
  reachable md5 self ->
  _md5_digests self = ds ++ [None] ->
  number p = 0 ->
  exists self',
    add_digest self p d = (Ok tt, self') /\
    _md5_digests self' = ds ++ [Some d] /\
    list_get (_md5_digests self') (part_qty (_part_gen self) - 1)
    = Ok (Some d).
Proof.
  intros Hwf%reachable_well_formed Hds Hp.
  assert (Hlen : length (_md5_digests self) = S (length ds))
    by (rewrite Hds, length_app; simpl; lia).
  assert (Hk : py_index (_md5_digests self) (number p - 1) = Ok (length ds)).
  { rewrite py_index_negative by lia. f_equal. lia. }
  assert (Hslot : _md5_digests self !! length ds = Some None).
  { rewrite Hds, lookup_app_r, Nat.sub_diag by lia. reflexivity. }
  rewrite (add_digest_stores self p d _ Hwf Hk Hslot).
  assert (Hins : <[length ds := Some d]> (_md5_digests self)
                 = ds ++ [Some d]).
  { rewrite Hds, insert_app_r_alt, Nat.sub_diag by lia. reflexivity. }
  eexists. split; [reflexivity|]. cbn [_md5_digests]. rewrite Hins.
  split; [reflexivity|].
  apply list_get_Ok. exists (length ds). split.
  - destruct Hwf as [Hq _]. rewrite <- Hq, Hlen.
    rewrite py_index_nonneg by (rewrite length_app; simpl; lia).
    f_equal. lia.
  - rewrite lookup_app_r, Nat.sub_diag by lia. reflexivity.
Qed.

Lemma add_digest_part_zero_witness :
  exists self',
    add_digest etag_130MiB (mkPart 0 0 0) [Byte.x09] = (Ok tt, self') /\
    _md5_digests self' = [None; None] ++ [Some [Byte.x09]] /\
    list_get (_md5_digests self') (part_qty (_part_gen etag_130MiB) - 1)
    = Ok (Some [Byte.x09]).
Proof.
  apply (add_digest_part_zero constant_digest etag_130MiB [None; None]).
  - exists (mb 130), etag_130MiB, []. split; reflexivity.
  - reflexivity.
  - reflexivity.
Defined.

(** C2 — for a plan and a digest for each part, submitting the digests
    by [add_digest] in any order of the part numbers and then calling
    [as_str] gives the text that submitting them in ascending order
    gives: the MD5 of the digests joined in the order of the part numbers,
    and the count. *)
Theorem submission_order_irrelevant (md5 : bytes -> bytes)
    (digest_of : Z -> bytes) (file_size : Z) (e0 : DandiETag)
    (ps ps' : list Part) :
  __init__ file_size = Ok e0 ->
  number <$> ps ≡ₚ seqZ 1 (part_qty (_part_gen e0)) ->
  number <$> ps' = seqZ 1 (part_qty (_part_gen e0)) ->
  exists e e' s,
    submit_all digest_of ps e0 = (Ok tt, e) /\
    submit_all digest_of ps' e0 = (Ok tt, e') /\
    as_str md5 e = Ok s /\ as_str md5 e' = Ok s /\
    s = (hex (md5 (concat (digest_of <$> seqZ 1 (part_qty (_part_gen e0)))))
         ++ "-" ++ str_of_int (part_qty (_part_gen e0)))%string.
Proof.
  intros Hinit Hperm Hasc.
  destruct (submit_permutation digest_of file_size e0 ps Hinit Hperm)
    as (e & He & Hwe & Hde).
  destruct (submit_permutation digest_of file_size e0 ps' Hinit)
    as (e' & He' & Hwe' & Hde'); [rewrite Hasc; reflexivity|].
  apply init_Ok in Hinit as (pg & _ & Hq & ->). cbn [_part_gen] in *.
  assert (Hn : Z.of_nat (length (digest_of <$> seqZ 1 (part_qty pg)))
               = part_qty pg)
    by (rewrite length_fmap, length_seqZ; lia).
  eexists e, e', _. split; [exact He|]. split; [exact He'|].
  rewrite (as_str_complete md5 e _ Hwe Hde).
  rewrite (as_str_complete md5 e' _ Hwe' Hde'). rewrite Hn.
  repeat split; reflexivity.
Qed.

Lemma submission_order_irrelevant_witness :
  exists e e' s,
    submit_all (fun k => [Byte.x0a; Byte.x0b]) 
      [mkPart 3 (mb 128) (mb 2); mkPart 1 0 (mb 64); mkPart 2 (mb 64) (mb 64)]
      etag_130MiB = (Ok tt, e) /\
    submit_all (fun k => [Byte.x0a; Byte.x0b])
      [mkPart 1 0 (mb 64); mkPart 2 (mb 64) (mb 64); mkPart 3 (mb 128) (mb 2)]
      etag_130MiB = (Ok tt, e') /\
    as_str constant_digest e = Ok s /\ as_str constant_digest e' = Ok s /\
    s = (hex (constant_digest
                (concat ((fun k => [Byte.x0a; Byte.x0b])
                           <$> seqZ 1 (part_qty (_part_gen etag_130MiB)))))
         ++ "-" ++ str_of_int (part_qty (_part_gen etag_130MiB)))%string.
Proof.
  apply (submission_order_irrelevant constant_digest
           (fun k => [Byte.x0a; Byte.x0b]) (mb 130) etag_130MiB).
  - reflexivity.
  - change ([3; 1; 2] ≡ₚ [1; 2; 3]).
    etransitivity; [apply perm_swap|]. apply perm_skip, perm_swap.
  - reflexivity.
Defined.

(** C5 — on an accumulator in use, [as_str] raises its [ValueError]
    exactly when the accumulator is not complete; when it is complete
    every slot holds a digest and [as_str] returns the lowercase
    hexadecimal MD5 of the digests joined in slot order, a hyphen and the
    decimal count, a text that matches [REGEX] and is at most 38
    characters long. *)
Theorem as_str_spec (md5 : bytes -> bytes) (self : DandiETag) :
  (forall b, length (md5 b) = 16%nat) ->
  reachable md5 self ->
  (as_str md5 self = Raise ValueError <-> complete self = Ok false) /\
  (complete self = Ok true ->
   exists l : list bytes,
     _md5_digests self = Some <$> l /\
     as_str md5 self =
     Ok (hex (md5 (concat l)) ++ "-"
           ++ str_of_int (Z.of_nat (length l)))%string /\
     fullmatch_REGEX
       (hex (md5 (concat l)) ++ "-"
          ++ str_of_int (Z.of_nat (length l)))%string = true /\
     (String.length
        (hex (md5 (concat l)) ++ "-"
           ++ str_of_int (Z.of_nat (length l)))%string
      <= MAX_STR_LENGTH)%nat).
Proof.
  intros Hmd5 Hr.
  pose proof (reachable_well_formed md5 self Hr) as Hwf.
  pose proof (reachable_count md5 self Hr) as Hcount.
  assert (Hdone : complete self = Ok true ->
                  exists l : list bytes, _md5_digests self = Some <$> l).
  { rewrite well_formed_complete by exact Hwf. intros [= Hc].
    apply Nat.eqb_eq, filled_prefix_all in Hc.
    apply Forall_is_Some_fmap, Hc. }
  split.
  - destruct (complete self) as [[|]|e] eqn:Hc.
    + destruct (Hdone eq_refl) as [l Hl].
      rewrite (as_str_complete md5 self l Hwf Hl). split; discriminate.
    + unfold as_str. rewrite Hc. cbn. split; reflexivity.
    + rewrite well_formed_complete in Hc by exact Hwf. discriminate.
  - intros Hc. destruct (Hdone Hc) as [l Hl]. exists l.
    split; [exact Hl|]. split; [apply as_str_complete; assumption|].
    rewrite Hl, length_fmap in Hcount.
    apply etag_text; [apply Hmd5|exact Hcount].
Qed.

Lemma as_str_spec_witness :
  let self :=
    run_ops constant_digest
      [AddDigest (mkPart 2 (mb 64) (mb 64)) [Byte.x02];
       Update [Byte.x01]; AddNextDigest [Byte.x03]] etag_130MiB in
  (as_str constant_digest self = Raise ValueError
   <-> complete self = Ok false) /\
  (complete self = Ok true ->
   exists l : list bytes,
     _md5_digests self = Some <$> l /\
     as_str constant_digest self =
     Ok (hex (constant_digest (concat l)) ++ "-"
           ++ str_of_int (Z.of_nat (length l)))%string /\
     fullmatch_REGEX
       (hex (constant_digest (concat l)) ++ "-"
          ++ str_of_int (Z.of_nat (length l)))%string = true /\
     (String.length
        (hex (constant_digest (concat l)) ++ "-"
           ++ str_of_int (Z.of_nat (length l)))%string
      <= MAX_STR_LENGTH)%nat).
Proof.
  intros self. apply (as_str_spec constant_digest self).
  - intros b. reflexivity.
  - exists (mb 130), etag_130MiB. eexists. split; reflexivity.
Defined.

End Claims.

(** * Further properties of the code *)

(** ** The shape of a plan *)

Section PlanShape.

Import PyFloat PyFloatFacts.

(** The part size that [for_file_size] settles on: on the supported sizes
    neither limit of the clamp is ever reached. *)
Lemma for_file_size_part_size (file_size : Z) :
  0 <= file_size <= tb 5 ->
  for_file_size file_size =
  Ok (plan file_size
        (if file_size <=? 9999 * mb 64 then mb 64
         else ceil_div file_size MAX_PARTS)).
Proof.
  intros Hs. unfold for_file_size.
  assert (Htb : tb 5 = 5 * 2 ^ 40) by reflexivity.
  assert (Hmb : mb 64 = 2 ^ 26) by reflexivity.
  assert (Hmin : MIN_PART_SIZE = 5 * 2 ^ 20) by reflexivity.
  assert (Hmax : MAX_PART_SIZE = 5 * 2 ^ 30) by reflexivity.
  assert (Hparts : MAX_PARTS = 10000) by reflexivity.
  destruct (Z.gtb_spec file_size (tb 5)) as [|_]; [lia|].
  rewrite ceil_truediv_exact by lia. cbn [bind].
  pose proof (ceil_div_spec file_size (mb 64) ltac:(lia)) as H64.
  destruct (Z.geb_spec (ceil_div file_size (mb 64)) MAX_PARTS) as [Hge|Hlt];
    destruct (Z.leb_spec file_size (9999 * mb 64)) as [Hle|Hgt]; try lia.
  - rewrite ceil_truediv_exact by lia. cbn [bind].
    pose proof (ceil_div_spec file_size MAX_PARTS ltac:(lia)) as Hc.
    set (c := ceil_div file_size MAX_PARTS) in *.
    destruct (Z.ltb_spec c MIN_PART_SIZE); [lia|].
    destruct (Z.gtb_spec c MAX_PART_SIZE); [lia|].
    unfold plan. destruct (file_size mod c =? 0); reflexivity.
  - cbn [bind].
    destruct (Z.ltb_spec (mb 64) MIN_PART_SIZE); [lia|].
    destruct (Z.gtb_spec (mb 64) MAX_PART_SIZE); [lia|].
    unfold plan. destruct (file_size mod mb 64 =? 0); reflexivity.
Qed.

(** X1 — a file of at most 64 MiB is one part, the file itself; up to
    9999 times 64 MiB the parts are of 64 MiB, the last one of what is
    left, and there are as many as it takes. *)
Theorem for_file_size_default_part_size (file_size : Z) (pg : PartGenerator) :
  1 <= file_size <= 9999 * mb 64 ->
  for_file_size file_size = Ok pg ->
  part_qty pg = ceil_div file_size (mb 64) /\
  (file_size <= mb 64 -> pg = mkPartGenerator 1 file_size file_size) /\
  (mb 64 < file_size ->
   2 <= part_qty pg <= 9999 /\ initial_part_size pg = mb 64 /\
   0 < final_part_size pg <= mb 64).
Proof.
  intros Hs Hpg.
  assert (Htb : tb 5 = 5 * 2 ^ 40) by reflexivity.
  assert (Hmb : mb 64 = 2 ^ 26) by reflexivity.
  rewrite for_file_size_part_size in Hpg by lia.
  destruct (Z.leb_spec file_size (9999 * mb 64)); [|lia].
  injection Hpg as <-. unfold plan.
  pose proof (ceil_div_spec file_size (mb 64) ltac:(lia)) as Hc.
  pose proof (Z.div_mod file_size (mb 64) ltac:(lia)) as Hdm.
  pose proof (Z.mod_pos_bound file_size (mb 64) ltac:(lia)) as Hm.
  set (c := ceil_div file_size (mb 64)) in *.
  set (q := file_size / mb 64) in *. set (f := file_size mod mb 64) in *.
  destruct (Z.eqb_spec f 0) as [Hf|Hf].
  - assert (Hq : q = c) by nia.
    destruct (Z.eqb_spec q 1) as [Hq1|Hq1]; cbn [part_qty initial_part_size
      final_part_size]; (split; [exact Hq|]); split.
    + intros _. f_equal; lia.
    + intros Hgt. lia.
    + intros Hle. nia.
    + intros Hgt. split; [nia|]. split; [reflexivity|lia].
  - assert (Hq : q + 1 = c) by nia.
    destruct (Z.eqb_spec (q + 1) 1) as [Hq1|Hq1]; cbn [part_qty
      initial_part_size final_part_size]; (split; [exact Hq|]); split.
    + intros _. f_equal; lia.
    + intros Hgt. nia.
    + intros Hle. nia.
    + intros Hgt. split; [nia|]. split; [reflexivity|lia].
Qed.

Lemma for_file_size_default_part_size_witness :
  part_qty (mkPartGenerator 3 (mb 64) (mb 2)) = ceil_div (mb 130) (mb 64) /\
  (mb 130 <= mb 64 ->
   mkPartGenerator 3 (mb 64) (mb 2) = mkPartGenerator 1 (mb 130) (mb 130)) /\
  (mb 64 < mb 130 ->
   2 <= part_qty (mkPartGenerator 3 (mb 64) (mb 2)) <= 9999 /\
   initial_part_size (mkPartGenerator 3 (mb 64) (mb 2)) = mb 64 /\
   0 < final_part_size (mkPartGenerator 3 (mb 64) (mb 2)) <= mb 64).
Proof.
  apply (for_file_size_default_part_size (mb 130)).
  - unfold mb. lia.
  - reflexivity.
Defined.

(** X2 — above 9999 times 64 MiB the plan always has exactly 10000 parts, of
    the file size divided by 10000 and rounded up, the last one no
    larger. *)
Theorem for_file_size_10000_parts (file_size : Z) (pg : PartGenerator) :
  9999 * mb 64 < file_size <= tb 5 ->
  for_file_size file_size = Ok pg ->
  part_qty pg = 10000 /\
  initial_part_size pg = ceil_div file_size 10000 /\
  mb 64 - 6710 <= initial_part_size pg <= MAX_PART_SIZE /\
  0 < final_part_size pg <= initial_part_size pg.
Proof.
  intros Hs Hpg.
  assert (Htb : tb 5 = 5 * 2 ^ 40) by reflexivity.
  assert (Hmb : mb 64 = 2 ^ 26) by reflexivity.
  assert (Hmax : MAX_PART_SIZE = 5 * 2 ^ 30) by reflexivity.
  rewrite for_file_size_part_size in Hpg by lia.
  destruct (Z.leb_spec file_size (9999 * mb 64)); [lia|].
  injection Hpg as <-. unfold plan, MAX_PARTS.
  pose proof (ceil_div_spec file_size 10000 ltac:(lia)) as Hc.
  set (c := ceil_div file_size 10000) in *.
  pose proof (Z.div_mod file_size c ltac:(lia)) as Hdm.
  pose proof (Z.mod_pos_bound file_size c ltac:(lia)) as Hm.
  set (q := file_size / c) in *. set (f := file_size mod c) in *.
  destruct (Z.eqb_spec f 0) as [Hf|Hf].
  - assert (Hq : q = 10000) by nia.
    destruct (Z.eqb_spec q 1); [lia|].
    cbn [part_qty initial_part_size final_part_size]. lia.
  - assert (Hq : q = 9999) by nia.
    destruct (Z.eqb_spec (q + 1) 1); [lia|].
    cbn [part_qty initial_part_size final_part_size]. lia.
Qed.

Lemma for_file_size_10000_parts_witness :
  part_qty (mkPartGenerator 10000 549755814 549754694) = 10000 /\
  initial_part_size (mkPartGenerator 10000 549755814 549754694)
  = ceil_div (tb 5) 10000 /\
  mb 64 - 6710
  <= initial_part_size (mkPartGenerator 10000 549755814 549754694)
  <= MAX_PART_SIZE /\
  0 < final_part_size (mkPartGenerator 10000 549755814 549754694)
  <= initial_part_size (mkPartGenerator 10000 549755814 549754694).
Proof.
  apply (for_file_size_10000_parts (tb 5)).
  - unfold mb, tb. lia.
  - reflexivity.
Defined.

End PlanShape.

(** ** Looking a part up by its number *)

Section PartLookup.

Import PyFloat PyFloatFacts.

Lemma plan_final_le (file_size part_size : Z) :
  0 < part_size ->
  final_part_size (plan file_size part_size)
  <= initial_part_size (plan file_size part_size).
Proof.
  intros Hp. unfold plan.
  pose proof (Z.mod_pos_bound file_size part_size Hp) as Hm.
  set (q := file_size / part_size) in *.
  set (f := file_size mod part_size) in *.
  destruct (Z.eqb_spec f 0); cbn [part_qty initial_part_size
    final_part_size].
  - destruct (Z.eqb_spec q 1); cbn; lia.
  - destruct (Z.eqb_spec (q + 1) 1); cbn; lia.
Qed.

(** The numbers behind the plan of a file of 1 byte to 5 TiB. *)
Lemma for_file_size_geometry (file_size : Z) (pg : PartGenerator) :
  1 <= file_size <= tb 5 ->
  for_file_size file_size = Ok pg ->
  1 <= part_qty pg <= MAX_PARTS /\
  0 < final_part_size pg <= initial_part_size pg /\
  initial_part_size pg <= MAX_PART_SIZE /\
  initial_part_size pg * (part_qty pg - 1) + final_part_size pg = file_size.
Proof.
  intros Hs Hpg.
  destruct (for_file_size_supported file_size ltac:(lia))
    as (ps & Hps & Hmax & Heq).
  rewrite Heq in Hpg. injection Hpg as <-.
  assert (Hpos : 0 < ps) by (unfold MIN_PART_SIZE, mb in Hps; lia).
  destruct (plan_partition file_size ps ltac:(lia) Hpos Hmax)
    as (Hqty & Hinit & Hfinal & Hsum).
  pose proof (plan_final_le file_size ps Hpos) as Hle.
  repeat split; try lia.
  unfold plan in *.
  destruct (file_size mod ps =? 0);
    cbn [part_qty initial_part_size final_part_size] in *.
  - destruct (file_size / ps =? 1); cbn; lia.
  - destruct (file_size / ps + 1 =? 1); cbn;
      pose proof (Z.mod_pos_bound file_size ps Hpos); lia.
Qed.

(** X3 — indexing the plan of a file of 1 byte to 5 TiB: the numbers 1 to the
    count give a part, every other number raises IndexError (no index
    from the end, no part 0); the part lies inside the file, is not
    empty and no larger than 5 GiB, the one after it starts where it
    ends, and the last one ends at the end of the file. *)
Theorem getitem_bounds (file_size : Z) (pg : PartGenerator) (i : Z) :
  1 <= file_size <= tb 5 ->
  for_file_size file_size = Ok pg ->
  (i < 1 \/ part_qty pg < i -> __getitem__ pg i = Raise IndexError) /\
  (1 <= i <= part_qty pg ->
   exists p,
     __getitem__ pg i = Ok p /\ number p = i /\
     0 <= offset p /\ 0 < size p <= MAX_PART_SIZE /\
     offset p + size p <= file_size /\
     (i = part_qty pg -> offset p + size p = file_size) /\
     (i < part_qty pg ->
      exists p', __getitem__ pg (i + 1) = Ok p' /\
                 offset p' = offset p + size p)).
Proof.
  intros Hs Hpg.
  destruct (for_file_size_geometry file_size pg Hs Hpg)
    as (Hqty & Hfinal & Hinit & Hsum).
  unfold MAX_PARTS in Hqty. split.
  - intros Hi. unfold __getitem__.
    destruct (Z.leb_spec 1 i), (Z.ltb_spec i (part_qty pg)); cbn [andb];
      try lia; destruct (Z.eqb_spec i (part_qty pg)); try lia; reflexivity.
  - intros Hi. unfold __getitem__ at 1.
    destruct (Z.leb_spec 1 i); [|lia].
    destruct (Z.ltb_spec i (part_qty pg)) as [Hlt|Hge]; cbn [andb].
    + eexists. split; [reflexivity|]. cbn [number offset size].
      split; [reflexivity|]. split; [nia|]. split; [lia|].
      split; [nia|]. split; [lia|]. intros _.
      unfold __getitem__.
      destruct (Z.leb_spec 1 (i + 1)); [|lia].
      destruct (Z.ltb_spec (i + 1) (part_qty pg)); cbn [andb].
      * eexists. split; [reflexivity|]. cbn [offset]. lia.
      * destruct (Z.eqb_spec (i + 1) (part_qty pg)); [|lia].
        eexists. split; [reflexivity|]. cbn [offset]. lia.
    + destruct (Z.eqb_spec i (part_qty pg)) as [->|]; [|lia].
      eexists. split; [reflexivity|]. cbn [number offset size].
      split; [reflexivity|]. split; [nia|]. split; [lia|].
      split; [lia|]. split; [lia|]. lia.
Qed.

Lemma getitem_bounds_witness :
  (2 < 1 \/ part_qty (mkPartGenerator 3 (mb 64) (mb 2)) < 2 ->
   __getitem__ (mkPartGenerator 3 (mb 64) (mb 2)) 2 = Raise IndexError) /\
  (1 <= 2 <= part_qty (mkPartGenerator 3 (mb 64) (mb 2)) ->
   exists p,
     __getitem__ (mkPartGenerator 3 (mb 64) (mb 2)) 2 = Ok p /\
     number p = 2 /\
     0 <= offset p /\ 0 < size p <= MAX_PART_SIZE /\
     offset p + size p <= mb 130 /\
     (2 = part_qty (mkPartGenerator 3 (mb 64) (mb 2)) ->
      offset p + size p = mb 130) /\
     (2 < part_qty (mkPartGenerator 3 (mb 64) (mb 2)) ->
      exists p', __getitem__ (mkPartGenerator 3 (mb 64) (mb 2)) (2 + 1)
                 = Ok p' /\
                 offset p' = offset p + size p)).
Proof.
  apply (getitem_bounds (mb 130)).
  - unfold mb, tb. lia.
  - reflexivity.
Defined.

End PartLookup.

(** ** The accumulator in use *)

Section AccumulatorInUse.

Implicit Types (self : DandiETag).

Lemma getitem_number (pg : PartGenerator) (i : Z) (p : Part) :
  __getitem__ pg i = Ok p -> number p = i.
Proof.
  unfold __getitem__.
  destruct ((1 <=? i) && (i <? part_qty pg)); [intros [= <-]; reflexivity|].
  destruct (i =? part_qty pg); [intros [= <-]; reflexivity|discriminate].
Qed.

Lemma next_part_cases self :
  well_formed self ->
  match get_next_part self with
  | Ok None => complete self = Ok true
  | Ok (Some p) =>
      complete self = Ok false /\
      number p = _next_index self + 1 /\
      get_parts self !! Z.to_nat (_next_index self) = Some p /\
      py_index (_md5_digests self) (number p - 1)
      = Ok (Z.to_nat (_next_index self)) /\
      _md5_digests self !! Z.to_nat (_next_index self) = Some None
  | Raise _ => False
  end.
Proof.
  intros Hwf. pose proof (well_formed_qty self Hwf) as Hq.
  destruct Hwf as [Hlen Hnext].
  pose proof (filled_prefix_le (_md5_digests self)) as Hle.
  unfold get_next_part, complete. rewrite Hq. cbn [bind].
  destruct (Z.ltb_spec (_next_index self)
              (Z.of_nat (length (_md5_digests self)))) as [Hlt|Hge].
  - destruct (getitem_iter (_part_gen self) (_next_index self + 1))
      as (p & Hp & Hit); [lia|].
    rewrite Hp. cbn [bind]. pose proof (getitem_number _ _ _ Hp) as Hn.
    split.
    { destruct (Z.eqb_spec (_next_index self)
                  (Z.of_nat (length (_md5_digests self)))); [lia|].
      reflexivity. }
    split; [exact Hn|]. split.
    { unfold get_parts. rewrite <- Hit. f_equal. lia. }
    split.
    { rewrite py_index_nonneg by lia. do 2 f_equal. lia. }
    rewrite Hnext, Nat2Z.id. apply filled_prefix_lookup. lia.
  - destruct (Z.eqb_spec (_next_index self)
                (Z.of_nat (length (_md5_digests self)))); [|lia].
    reflexivity.
Qed.

(** X4 — [get_next_part] on an accumulator in use never raises: it gives
    [None] exactly when the accumulator is complete, and otherwise the
    part numbered [_next_index + 1], the one that iterating the plan
    gives at that position, whose slot is empty. *)
Theorem get_next_part_spec (md5 : bytes -> bytes) self :
  reachable md5 self ->
  match get_next_part self with
  | Ok None => complete self = Ok true
  | Ok (Some p) =>
      complete self = Ok false /\
      number p = _next_index self + 1 /\
      get_parts self !! Z.to_nat (_next_index self) = Some p /\
      list_get (_md5_digests self) (number p - 1) = Ok None
  | Raise _ => False
  end.
Proof.
  intros Hwf%reachable_well_formed.
  pose proof (next_part_cases self Hwf) as H.
  destruct (get_next_part self) as [[p|]|e]; [|exact H|exact H].
  destruct H as (Hc & Hn & Hit & Hk & Hslot).
  repeat split; try assumption.
  apply list_get_Ok. eauto.
Qed.

Lemma get_next_part_spec_witness :
  match get_next_part etag_130MiB with
  | Ok None => complete etag_130MiB = Ok true
  | Ok (Some p) =>
      complete etag_130MiB = Ok false /\
      number p = _next_index etag_130MiB + 1 /\
      get_parts etag_130MiB !! Z.to_nat (_next_index etag_130MiB) = Some p /\
      list_get (_md5_digests etag_130MiB) (number p - 1) = Ok None
  | Raise _ => False
  end.
Proof.
  apply (get_next_part_spec constant_digest etag_130MiB).
  exists (mb 130), etag_130MiB, []. split; reflexivity.
Defined.

(** X5 — [add_next_digest] and [update] are [add_digest] for the part that
    [get_next_part] gives: the same result and the same accumulator
    after the call, [update] with the MD5 of its block. *)
Theorem add_next_digest_as_add_digest (md5 : bytes -> bytes) self (p : Part)
    (d block : bytes) :
  reachable md5 self ->
  get_next_part self = Ok (Some p) ->
  add_next_digest self d = add_digest self p d /\
  update md5 self block = add_digest self p (md5 block).
Proof.
  intros Hwf%reachable_well_formed Hnext.
  pose proof (next_part_cases self Hwf) as H. rewrite Hnext in H.
  destruct H as (Hc & _ & _ & Hk & Hslot).
  split.
  - rewrite (add_next_digest_stores self d Hwf Hc).
    rewrite (add_digest_stores self p d _ Hwf Hk Hslot). reflexivity.
  - unfold update. rewrite Hc.
    rewrite (add_next_digest_stores self (md5 block) Hwf Hc).
    rewrite (add_digest_stores self p (md5 block) _ Hwf Hk Hslot).
    reflexivity.
Qed.

Lemma add_next_digest_as_add_digest_witness :
  add_next_digest etag_130MiB [Byte.x01]
  = add_digest etag_130MiB (mkPart 1 0 (mb 64)) [Byte.x01] /\
  update constant_digest etag_130MiB [Byte.x07]
  = add_digest etag_130MiB (mkPart 1 0 (mb 64)) (constant_digest [Byte.x07]).
Proof.
  apply (add_next_digest_as_add_digest constant_digest etag_130MiB).
  - exists (mb 130), etag_130MiB, []. split; reflexivity.
  - reflexivity.
Defined.

Lemma py_index_cases {A : Type} (l : list A) (i : Z) :
  (exists k, py_index l i = Ok k /\ (k < length l)%nat /\
             - Z.of_nat (length l) <= i < Z.of_nat (length l)) \/
  (py_index l i = Raise IndexError /\
   (i < - Z.of_nat (length l) \/ Z.of_nat (length l) <= i)).
Proof.
  unfold py_index.
  destruct (Z.leb_spec 0 i), (Z.ltb_spec i (Z.of_nat (length l)));
    cbn [andb]; try (left; eexists; split; [reflexivity|lia]);
    destruct (Z.leb_spec (- Z.of_nat (length l)) i), (Z.ltb_spec i 0);
    cbn [andb]; try (left; eexists; split; [reflexivity|lia]);
    right; split; try reflexivity; lia.
Qed.

(** X6 — once complete, an accumulator takes nothing more: [add_next_digest]
    and [update] raise RuntimeError, [add_digest] raises RuntimeError
    for a number whose index is in range and IndexError for any other,
    and whatever is called, the accumulator stays as it was. *)
Theorem complete_rejects (md5 : bytes -> bytes) self :
  reachable md5 self ->
  complete self = Ok true ->
  (forall d, add_next_digest self d = (Raise RuntimeError, self)) /\
  (forall block, update md5 self block = (Raise RuntimeError, self)) /\
  (forall p d,
      add_digest self p d =
      (Raise (if (- part_qty (_part_gen self) <? number p)
                 && (number p <=? part_qty (_part_gen self))
              then RuntimeError else IndexError), self)) /\
  (forall os, run_ops md5 os self = self).
Proof.
  intros Hwf%reachable_well_formed Hc.
  assert (Hnext : forall d, add_next_digest self d = (Raise RuntimeError, self))
    by (intros d; unfold add_next_digest; rewrite Hc; reflexivity).
  assert (Hupd : forall block,
             update md5 self block = (Raise RuntimeError, self))
    by (intros b; unfold update; rewrite Hc; reflexivity).
  assert (Hadd : forall p d,
      add_digest self p d =
      (Raise (if (- part_qty (_part_gen self) <? number p)
                 && (number p <=? part_qty (_part_gen self))
              then RuntimeError else IndexError), self)).
  { intros p d. rewrite well_formed_complete in Hc by exact Hwf.
    injection Hc as Hc. apply Nat.eqb_eq in Hc.
    destruct Hwf as [Hlen _]. unfold add_digest, list_get.
    destruct (py_index_cases (_md5_digests self) (number p - 1))
      as [(k & -> & Hk & Hin)|[-> Hout]]; cbn [bind].
    - destruct (filled_prefix_lookup_lt (_md5_digests self) k ltac:(lia))
        as [d0 ->].
      destruct (Z.ltb_spec (- part_qty (_part_gen self)) (number p)),
        (Z.leb_spec (number p) (part_qty (_part_gen self)));
        cbn [andb]; try reflexivity; lia.
    - destruct (Z.ltb_spec (- part_qty (_part_gen self)) (number p)),
        (Z.leb_spec (number p) (part_qty (_part_gen self)));
        cbn [andb]; try reflexivity; lia. }
  split; [exact Hnext|]. split; [exact Hupd|]. split; [exact Hadd|].
  induction os as [|o os IH]; [reflexivity|].
  change (run_ops md5 (o :: os) self)
    with (run_ops md5 os (run_op md5 o self).2).
  destruct o as [p d|d|b]; cbn [run_op].
  - rewrite Hadd. exact IH.
  - rewrite Hnext. exact IH.
  - rewrite Hupd. exact IH.
Qed.

Lemma complete_rejects_witness :
  let self :=
    mkDandiETag (mkPartGenerator 1 1 1) [Some [Byte.x01]] 1 in
  (forall d, add_next_digest self d = (Raise RuntimeError, self)) /\
  (forall block,
      update constant_digest self block = (Raise RuntimeError, self)) /\
  (forall p d,
      add_digest self p d =
      (Raise (if (- part_qty (_part_gen self) <? number p)
                 && (number p <=? part_qty (_part_gen self))
              then RuntimeError else IndexError), self)) /\
  (forall os, run_ops constant_digest os self = self).
Proof.
  intros self. apply (complete_rejects constant_digest self).
  - exists 1, (mkDandiETag (mkPartGenerator 1 1 1) [None] 0),
      [AddNextDigest [Byte.x01]].
    split; reflexivity.
  - reflexivity.
Defined.

Lemma run_op_keeps (md5 : bytes -> bytes) (o : op) self :
  well_formed self ->
  ((run_op md5 o self).1 <> Ok tt -> (run_op md5 o self).2 = self) /\
  _next_index self <= _next_index (run_op md5 o self).2 /\
  (forall (i : nat) d,
      _md5_digests self !! i = Some (Some d) ->
      _md5_digests (run_op md5 o self).2 !! i = Some (Some d)).
Proof.
  intros Hwf.
  assert (Hins : forall k d0,
    _md5_digests self !! k = Some None ->
    let self' :=
      mkDandiETag (_part_gen self) (<[k := Some d0]> (_md5_digests self))
        (Z.of_nat (filled_prefix (<[k := Some d0]> (_md5_digests self)))) in
    _next_index self <= _next_index self' /\
    (forall (i : nat) d,
        _md5_digests self !! i = Some (Some d) ->
        _md5_digests self' !! i = Some (Some d))).
  { intros k d0 Hslot self'. subst self'. cbn [_next_index _md5_digests].
    split.
    - destruct Hwf as [_ ->].
      pose proof (filled_prefix_insert (_md5_digests self) k d0). lia.
    - intros i d Hi. rewrite list_lookup_insert_ne by congruence.
      exact Hi. }
  assert (Hadd : forall p d0,
    ((add_digest self p d0).1 <> Ok tt -> (add_digest self p d0).2 = self) /\
    _next_index self <= _next_index (add_digest self p d0).2 /\
    (forall (i : nat) d,
        _md5_digests self !! i = Some (Some d) ->
        _md5_digests (add_digest self p d0).2 !! i = Some (Some d))).
  { intros p d0.
    destruct (list_get (_md5_digests self) (number p - 1)) as [[d1|]|e]
      eqn:Hget.
    - unfold add_digest. rewrite Hget. cbn. split; [reflexivity|].
      split; [lia|]. auto.
    - apply list_get_Ok in Hget as (k & Hk & Hslot).
      rewrite (add_digest_stores self p d0 k Hwf Hk Hslot).
      split; [intros H; cbn in H; congruence|].
      apply (Hins k d0 Hslot).
    - unfold add_digest. rewrite Hget. cbn. split; [reflexivity|].
      split; [lia|]. auto. }
  assert (Hnext : forall d0,
    ((add_next_digest self d0).1 <> Ok tt ->
     (add_next_digest self d0).2 = self) /\
    _next_index self <= _next_index (add_next_digest self d0).2 /\
    (forall (i : nat) d,
        _md5_digests self !! i = Some (Some d) ->
        _md5_digests (add_next_digest self d0).2 !! i = Some (Some d))).
  { intros d0. destruct (complete self) as [[|]|e] eqn:Hc.
    - unfold add_next_digest. rewrite Hc. cbn. split; [reflexivity|].
      split; [lia|]. auto.
    - rewrite (add_next_digest_stores self d0 Hwf Hc).
      split; [intros H; cbn in H; congruence|].
      apply Hins. rewrite well_formed_complete in Hc by exact Hwf.
      destruct Hwf as [_ ->]. rewrite Nat2Z.id.
      apply filled_prefix_lookup.
      pose proof (filled_prefix_le (_md5_digests self)).
      destruct (Nat.eqb_spec (filled_prefix (_md5_digests self))
                  (length (_md5_digests self))); [discriminate|lia].
    - unfold add_next_digest. rewrite Hc. cbn. split; [reflexivity|].
      split; [lia|]. auto. }
  destruct o as [p d0|d0|b]; cbn [run_op].
  - apply Hadd.
  - apply Hnext.
  - unfold update. destruct (complete self) as [[|]|e] eqn:Hc.
    + cbn. split; [reflexivity|]. split; [lia|]. auto.
    + apply Hnext.
    + cbn. split; [reflexivity|]. split; [lia|]. auto.
Qed.

(** X7 — a call that raises changes nothing: whichever of [add_digest],
    [add_next_digest] and [update] is called on an accumulator in use,
    with whatever arguments, if it raises, the accumulator is as it was
    before the call. *)
Theorem failed_call_changes_nothing (md5 : bytes -> bytes) self (o : op)
    (e : exn) :
  reachable md5 self ->
  (run_op md5 o self).1 = Raise e ->
  (run_op md5 o self).2 = self.
Proof.
  intros Hwf%reachable_well_formed He.
  apply (run_op_keeps md5 o self Hwf). rewrite He. discriminate.
Qed.

Lemma failed_call_changes_nothing_witness :
  (run_op constant_digest (AddDigest (mkPart 4 0 0) [Byte.x04])
     etag_130MiB).2 = etag_130MiB.
Proof.
  apply (failed_call_changes_nothing constant_digest etag_130MiB
           (AddDigest (mkPart 4 0 0) [Byte.x04]) IndexError).
  - exists (mb 130), etag_130MiB, []. split; reflexivity.
  - reflexivity.
Defined.

(** X8 — a digest, once in a slot, stays: no sequence of calls on an
    accumulator in use changes or empties a filled slot, and
    [_next_index] never goes down. *)
Theorem digests_persist (md5 : bytes -> bytes) self (os : list op)
    (i : nat) (d : bytes) :
  reachable md5 self ->
  _md5_digests self !! i = Some (Some d) ->
  _md5_digests (run_ops md5 os self) !! i = Some (Some d) /\
  _next_index self <= _next_index (run_ops md5 os self).
Proof.
  intros Hwf%reachable_well_formed. revert self Hwf.
  induction os as [|o os IH]; intros self Hwf Hi;
    [split; [exact Hi|apply Z.le_refl]|].
  change (run_ops md5 (o :: os) self)
    with (run_ops md5 os (run_op md5 o self).2).
  destruct (run_op_keeps md5 o self Hwf) as (_ & Hle & Hkeep).
  assert (Hwf' : well_formed (run_op md5 o self).2).
  { destruct o; cbn [run_op].
    - apply add_digest_well_formed, Hwf.
    - apply add_next_digest_well_formed, Hwf.
    - apply update_well_formed, Hwf. }
  destruct (IH _ Hwf' (Hkeep i d Hi)) as [H1 H2]. split; [exact H1|lia].
Qed.

Lemma digests_persist_witness :
  let self :=
    run_ops constant_digest [AddDigest (mkPart 2 (mb 64) (mb 64)) [Byte.x02]]
      etag_130MiB in
  let os :=
    [AddDigest (mkPart 2 (mb 64) (mb 64)) [Byte.x05];
     AddNextDigest [Byte.x01]; Update [Byte.x03]; Update [Byte.x04]] in
  _md5_digests (run_ops constant_digest os self) !! 1%nat
  = Some (Some [Byte.x02]) /\
  _next_index self <= _next_index (run_ops constant_digest os self).
Proof.
  intros self os. apply (digests_persist constant_digest self os).
  - exists (mb 130), etag_130MiB. eexists. split; reflexivity.
  - reflexivity.
Defined.

(** X9 — [add_digest] looks at the number of the part only: on an
    accumulator in use of [q] parts, a number above [q] or at most [-q]
    raises IndexError and changes nothing, and a number from [-q + 1] to
    0 does what that number plus [q] does (Python counts a negative index
    from the end of the list of slots). *)
Theorem add_digest_number_range (md5 : bytes -> bytes) self (p : Part)
    (d : bytes) :
  reachable md5 self ->
  (number p <= - part_qty (_part_gen self) \/
   part_qty (_part_gen self) < number p ->
   add_digest self p d = (Raise IndexError, self)) /\
  (- part_qty (_part_gen self) < number p <= 0 ->
   add_digest self p d =
   add_digest self
     (mkPart (number p + part_qty (_part_gen self)) (offset p) (size p)) d).
Proof.
  intros [Hlen _]%reachable_well_formed. split.
  - intros Hout. unfold add_digest, list_get.
    destruct (py_index_cases (_md5_digests self) (number p - 1))
      as [(k & _ & _ & Hin)|[-> _]]; [lia|reflexivity].
  - intros Hin. unfold add_digest, list_get, list_set. cbn [number].
    rewrite py_index_negative by lia.
    rewrite py_index_nonneg by lia.
    replace (Z.to_nat (Z.of_nat (length (_md5_digests self))
                       + (number p - 1)))
      with (Z.to_nat (number p + part_qty (_part_gen self) - 1)) by lia.
    reflexivity.
Qed.

Lemma add_digest_number_range_witness :
  (-1 <= - part_qty (_part_gen etag_130MiB) \/
   part_qty (_part_gen etag_130MiB) < -1 ->
   add_digest etag_130MiB (mkPart (-1) 0 0) [Byte.x02]
   = (Raise IndexError, etag_130MiB)) /\
  (- part_qty (_part_gen etag_130MiB) < -1 <= 0 ->
   add_digest etag_130MiB (mkPart (-1) 0 0) [Byte.x02] =
   add_digest etag_130MiB
     (mkPart (-1 + part_qty (_part_gen etag_130MiB)) 0 0) [Byte.x02]).
Proof.
  apply (add_digest_number_range constant_digest etag_130MiB
           (mkPart (-1) 0 0)).
  exists (mb 130), etag_130MiB, []. split; reflexivity.
Defined.

End AccumulatorInUse.

(** ** The ETag of a whole file *)

Section WholeFile.

Import PyFloat PyFloatFacts.

Variable md5 : bytes -> bytes.

Lemma filled_prefix_app_None (l : list bytes) (t : list (option bytes)) :
  filled_prefix ((Some <$> l) ++ None :: t) = length l.
Proof.
  induction l as [|d l IH]; [reflexivity|].
  rewrite fmap_cons. simpl. rewrite IH. reflexivity.
Qed.

Lemma tiles_le (ps : list Part) (from to : Z) : tiles ps from to -> from <= to.
Proof.
  revert from. induction ps as [|p ps IH]; simpl; intros from.
  - lia.
  - intros (_ & Hsize & Hrest). specialize (IH _ Hrest). lia.
Qed.

(** The parts of a tiling, read one after the other, are the bytes
    between its ends. *)
Lemma tiles_part_bytes (content : bytes) (ps : list Part) (from to : Z) :
  tiles ps from to -> 0 <= from ->
  concat (part_bytes content <$> ps)
  = take (Z.to_nat (to - from)) (drop (Z.to_nat from) content).
Proof.
  revert from. induction ps as [|p ps IH]; intros from.
  - simpl. intros -> _. rewrite Z.sub_diag. reflexivity.
  - intros (Hoff & Hsize & Hrest) Hfrom.
    pose proof (tiles_le _ _ _ Hrest) as Hle.
    rewrite fmap_cons. cbn [concat].
    rewrite (IH _ Hrest) by lia. unfold part_bytes. rewrite Hoff.
    replace (Z.to_nat (from + size p))
      with (Z.to_nat from + Z.to_nat (size p))%nat by lia.
    rewrite <- drop_drop, take_take_drop. f_equal. lia.
Qed.

(** The loop of [from_file], started where a tiling starts, on an
    accumulator with as many empty slots left as the tiling has parts. *)
Lemma from_file_loop_spec (content : bytes) (parts : list Part) :
  forall (from to : Z) (etag : DandiETag) (done : list bytes),
    tiles parts from to -> 0 <= from ->
    well_formed etag ->
    _md5_digests etag = (Some <$> done) ++ replicate (length parts) None ->
    from_file_loop md5 parts (drop (Z.to_nat from) content) etag =
    (Ok tt,
     mkDandiETag (_part_gen etag)
       (Some <$> (done ++ ((fun p => md5 (part_bytes content p)) <$> parts)))
       (Z.of_nat (length done + length parts))).
Proof.
  induction parts as [|p parts IH]; intros from to etag done Ht Hfrom Hwf Hds.
  - destruct etag as [pg ds ni]. destruct Hwf as [_ Hnext].
    cbn in *. subst ds ni.
    rewrite !app_nil_r, filled_prefix_Some, Nat.add_0_r. reflexivity.
  - destruct Ht as (Hoff & Hsize & Hrest).
    cbn [from_file_loop length replicate] in *.
    assert (Hc : complete etag = Ok false).
    { rewrite well_formed_complete by exact Hwf.
      rewrite Hds, filled_prefix_app_None, length_app, length_fmap.
      cbn [length]. f_equal. apply Nat.eqb_neq. lia. }
    unfold update. rewrite Hc.
    rewrite (add_next_digest_stores etag _ Hwf Hc).
    set (d := md5 (take (Z.to_nat (size p)) (drop (Z.to_nat from) content))).
    assert (Hd : d = md5 (part_bytes content p))
      by (unfold part_bytes; rewrite Hoff; reflexivity).
    assert (Hins : <[Z.to_nat (_next_index etag) := Some d]>
                     (_md5_digests etag)
                   = (Some <$> (done ++ [d]))
                     ++ replicate (length parts) None).
    { destruct Hwf as [_ ->].
      rewrite Hds, filled_prefix_app_None, Nat2Z.id.
      rewrite insert_app_r_alt by (rewrite length_fmap; lia).
      rewrite length_fmap, Nat.sub_diag, fmap_app, <- app_assoc.
      reflexivity. }
    rewrite Hins, drop_drop.
    replace (Z.to_nat from + Z.to_nat (size p))%nat
      with (Z.to_nat (from + size p)) by lia.
    rewrite (IH (from + size p) to _ (done ++ [d])); cbn [_part_gen
      _md5_digests].
    + rewrite <- app_assoc, length_app, Hd. cbn [length app fmap list_fmap].
      do 2 f_equal. lia.
    + exact Hrest.
    + lia.
    + destruct Hwf as [Hlen _]. split; cbn [_part_gen _md5_digests
        _next_index]; [|reflexivity].
      rewrite <- Hlen, Hds, !length_app, !length_fmap, length_app.
      cbn [length]. rewrite !length_replicate. lia.
    + reflexivity.
Qed.

(** [from_file] on a file of 1 byte to 5 TiB: the accumulator it
    returns. *)
Lemma from_file_digests (content : bytes) (pg : PartGenerator) :
  1 <= Z.of_nat (length content) <= tb 5 ->
  for_file_size (Z.of_nat (length content)) = Ok pg ->
  from_file md5 content =
  Ok (mkDandiETag pg
        (Some <$> ((fun p => md5 (part_bytes content p)) <$> __iter__ pg))
        (part_qty pg)) /\
  Z.of_nat (length (__iter__ pg)) = part_qty pg /\
  concat (part_bytes content <$> __iter__ pg) = content.
Proof.
  intros Hs Hpg.
  destruct (for_file_size_partition _ Hs)
    as (pg' & Hpg' & Hqty & _ & Htiles & Hnum).
  assert (pg' = pg) by congruence. subst pg'.
  assert (Hlen : length (__iter__ pg) = Z.to_nat (part_qty pg)).
  { rewrite <- (length_fmap number), Hnum, length_seqZ. reflexivity. }
  split; [|split; [lia|]].
  - unfold from_file, __init__. rewrite Hpg. cbn [bind].
    unfold len, __len__.
    destruct (Z.ltb_spec (part_qty pg) 0); [lia|]. cbn [bind].
    unfold get_parts. cbn [_part_gen].
    change content with (drop (Z.to_nat 0) content) at 1.
    rewrite (from_file_loop_spec content (__iter__ pg) 0
               (Z.of_nat (length content)) _ []).
    + cbn [_part_gen app length]. rewrite Hlen. do 2 f_equal. lia.
    + exact Htiles.
    + lia.
    + split; cbn [_md5_digests _part_gen _next_index].
      * rewrite length_replicate. lia.
      * rewrite filled_prefix_replicate_None. reflexivity.
    + cbn [_md5_digests fmap list_fmap app]. rewrite Hlen. reflexivity.
  - rewrite (tiles_part_bytes content _ 0 _ Htiles) by lia.
    rewrite Z.sub_0_r, Nat2Z.id. cbn [Z.to_nat drop].
    apply take_ge. lia.
Qed.

(** A file of at most 64 MiB is planned as one part. *)
Lemma for_file_size_single (file_size : Z) :
  1 <= file_size <= mb 64 ->
  for_file_size file_size = Ok (mkPartGenerator 1 file_size file_size).
Proof.
  intros Hs.
  assert (Htb : tb 5 = 5 * 2 ^ 40) by reflexivity.
  assert (Hmb : mb 64 = 2 ^ 26) by reflexivity.
  rewrite for_file_size_part_size by lia.
  destruct (Z.leb_spec file_size (9999 * mb 64)); [|lia].
  f_equal. unfold plan.
  destruct (Z.eq_dec file_size (mb 64)) as [->|Hne].
  - rewrite Z.mod_same, Z.div_same by lia. reflexivity.
  - rewrite Z.mod_small, Z.div_small by lia.
    destruct (Z.eqb_spec file_size 0); [lia|]. reflexivity.
Qed.

End WholeFile.

Section WholeFileETag.

(** X10 — [from_file] on a file of 1 byte to 5 TiB returns a complete
    accumulator: slot by slot it holds the MD5 of the bytes of the file
    from the offset of the part and of its size, the parts together are
    the file read once from start to end, and [as_str] gives the MD5 of
    these digests joined, in hexadecimal, a hyphen and the number of
    parts. *)
Theorem from_file_spec (md5 : bytes -> bytes) (content : bytes) :
  1 <= Z.of_nat (length content) <= tb 5 ->
  exists pg e,
    for_file_size (Z.of_nat (length content)) = Ok pg /\
    from_file md5 content = Ok e /\
    _part_gen e = pg /\
    _md5_digests e
    = (fun p => Some (md5 (part_bytes content p))) <$> __iter__ pg /\
    concat (part_bytes content <$> __iter__ pg) = content /\
    complete e = Ok true /\
    as_str md5 e =
    Ok (hex (md5 (concat ((fun p => md5 (part_bytes content p))
                            <$> __iter__ pg)))
          ++ "-" ++ str_of_int (part_qty pg))%string.
Proof.
  intros Hs.
  destruct (for_file_size_partition _ Hs) as (pg & Hpg & _).
  destruct (from_file_digests md5 content pg Hs Hpg)
    as (Hfrom & Hlen & Hcover).
  set (l := (fun p => md5 (part_bytes content p)) <$> __iter__ pg) in *.
  assert (Hl : Z.of_nat (length l) = part_qty pg)
    by (subst l; rewrite length_fmap; exact Hlen).
  assert (Hwf : well_formed (mkDandiETag pg (Some <$> l) (part_qty pg))).
  { split; cbn [_md5_digests _part_gen _next_index].
    - rewrite length_fmap. exact Hl.
    - rewrite filled_prefix_Some. lia. }
  exists pg, (mkDandiETag pg (Some <$> l) (part_qty pg)).
  split; [exact Hpg|]. split; [exact Hfrom|]. split; [reflexivity|].
  split.
  { cbn [_md5_digests]. subst l. rewrite <- list_fmap_compose.
    reflexivity. }
  split; [exact Hcover|]. split.
  - rewrite well_formed_complete by exact Hwf. cbn [_md5_digests].
    rewrite filled_prefix_Some, length_fmap, Nat.eqb_refl. reflexivity.
  - rewrite (as_str_complete md5 _ l Hwf) by reflexivity.
    rewrite Hl. reflexivity.
Qed.

Lemma from_file_spec_witness :
  exists pg e,
    for_file_size (Z.of_nat (length [Byte.x61; Byte.x62; Byte.x63]))
    = Ok pg /\
    from_file constant_digest [Byte.x61; Byte.x62; Byte.x63] = Ok e /\
    _part_gen e = pg /\
    _md5_digests e
    = (fun p => Some (constant_digest
                        (part_bytes [Byte.x61; Byte.x62; Byte.x63] p)))
        <$> __iter__ pg /\
    concat (part_bytes [Byte.x61; Byte.x62; Byte.x63] <$> __iter__ pg)
    = [Byte.x61; Byte.x62; Byte.x63] /\
    complete e = Ok true /\
    as_str constant_digest e =
    Ok (hex (constant_digest
               (concat ((fun p =>
                           constant_digest
                             (part_bytes [Byte.x61; Byte.x62; Byte.x63] p))
                          <$> __iter__ pg)))
          ++ "-" ++ str_of_int (part_qty pg))%string.
Proof.
  apply (from_file_spec constant_digest [Byte.x61; Byte.x62; Byte.x63]).
  unfold tb. cbn. lia.
Defined.

(** X11 — the ETag of a file of 1 byte to 64 MiB is not the MD5 of the file:
    [from_file] and then [as_str] give the MD5 of the MD5 digest of the
    whole content, in hexadecimal, followed by [-1]. *)
Theorem small_file_etag (md5 : bytes -> bytes) (content : bytes) :
  1 <= Z.of_nat (length content) <= mb 64 ->
  exists e,
    from_file md5 content = Ok e /\
    as_str md5 e = Ok (hex (md5 (md5 content)) ++ "-1")%string.
Proof.
  intros Hs.
  assert (Htb : tb 5 = 5 * 2 ^ 40) by reflexivity.
  assert (Hmb : mb 64 = 2 ^ 26) by reflexivity.
  pose proof (for_file_size_single _ Hs) as Hpg.
  destruct (from_file_digests md5 content _ ltac:(lia) Hpg)
    as (Hfrom & _ & _).
  assert (Hiter : __iter__ (mkPartGenerator 1 (Z.of_nat (length content))
                              (Z.of_nat (length content)))
                  = [mkPart 1 0 (Z.of_nat (length content))])
    by reflexivity.
  rewrite Hiter in Hfrom. cbn [fmap list_fmap] in Hfrom.
  assert (Hbytes : part_bytes content
                     (mkPart 1 0 (Z.of_nat (length content))) = content).
  { unfold part_bytes. cbn [size offset Z.to_nat drop].
    rewrite Nat2Z.id. apply take_ge. lia. }
  rewrite Hbytes in Hfrom.
  eexists. split; [exact Hfrom|].
  rewrite (as_str_complete md5 _ [md5 content]).
  - cbn [concat length]. rewrite app_nil_r. reflexivity.
  - split; reflexivity.
  - reflexivity.
Qed.

Lemma small_file_etag_witness :
  exists e,
    from_file constant_digest [Byte.x61; Byte.x62; Byte.x63] = Ok e /\
    as_str constant_digest e =
    Ok (hex (constant_digest
               (constant_digest [Byte.x61; Byte.x62; Byte.x63]))
          ++ "-1")%string.
Proof.
  apply (small_file_etag constant_digest [Byte.x61; Byte.x62; Byte.x63]).
  unfold mb. cbn. lia.
Defined.

End WholeFileETag.

(** * [Digester] *)

Section DigesterFacts.

Import Digester.

Lemma dict_get_set {V : Type} (d : dict V) (k k' : string) (v : V) :
  dict_get (dict_set d k v) k' =
  if String.eqb k' k then Some v else dict_get d k'.
Proof.
  induction d as [|[k0 v0] d IH]; simpl.
  - reflexivity.
  - destruct (String.eqb_spec k k0) as [->|Hne]; simpl.
    + destruct (String.eqb_spec k' k0); reflexivity.
    + rewrite IH.
      destruct (String.eqb_spec k' k0), (String.eqb_spec k' k); congruence.
Qed.






Section Hashlib.

Variable hashlib : string -> option (bytes -> bytes).


Lemma getattrs_Raises (digests : list string) :
  (exists n, n ∈ digests /\ hashlib n = None) <->
  getattrs hashlib digests = Raises AttributeError.
Proof.
  induction digests as [|d ds IH]; cbn [getattrs].
  - split; [intros (n & Hn & _); inversion Hn|discriminate].
  - destruct (hashlib d) as [x|] eqn:Hd.
    + destruct (getattrs hashlib ds) as [xs|[]] eqn:Hds.
      * split; [|discriminate].
        intros (n & Hn & Hnone). apply elem_of_cons in Hn as [->|Hn];
          [congruence|].
        destruct IH as [IH _]. discriminate IH. eauto.
      * split; [reflexivity|]. intros _.
        destruct IH as [_ (n & Hn & Hnone)]; [reflexivity|].
        exists n. split; [right; exact Hn|exact Hnone].
    + split; [reflexivity|]. intros _. exists d. split; [left|exact Hd].
Qed.



End Hashlib.



(** X13 — [Digester(digests)] raises AttributeError, and no digester is
    built, exactly when one of the names ([digests], or the four default
    names when no list or an empty one is given) is not in [hashlib]. *)
Theorem digester_unknown_name (hashlib : string -> option (bytes -> bytes))
    (digests : option (list string)) (blocksize : Z) :
  (exists n,
      n ∈ match digests with
          | None | Some [] => DEFAULT_DIGESTS
          | Some l => l
          end /\
      hashlib n = None) <->
  Digester.__init__ hashlib digests blocksize = Raises AttributeError.
Proof.
  rewrite getattrs_Raises. unfold Digester.__init__.
  destruct (getattrs hashlib _) as [funcs|[]]; split;
    (discriminate || reflexivity).
Qed.

End DigesterFacts.

(** * Environment variables around a block *)

Section EnvironFacts.

Lemma dict_get_del {V : Type} (d d' : dict V) (k k' : string) :
  dict_del d k = Some d' ->
  dict_get d' k' = if String.eqb k' k then None else dict_get d k'.
Proof.
  unfold dict_del. destruct (dict_get d k); [|discriminate].
  intros [= <-]. unfold dict in *. induction d as [|[k0 v0] d IH].
  - simpl. destruct (String.eqb k' k); reflexivity.
  - rewrite filter_cons. cbn [fst dict_get].
    destruct (String.eqb_spec k0 k) as [->|Hne]; cbn [negb].
    + destruct (decide (Is_true false)) as [[]|_]. rewrite IH.
      destruct (String.eqb_spec k' k); reflexivity.
    + destruct (decide (Is_true true)) as [_|Hn]; [|exfalso; apply Hn; exact I].
      cbn [dict_get]. rewrite IH.
      destruct (String.eqb_spec k' k0), (String.eqb_spec k' k);
        try reflexivity; congruence.
Qed.

Lemma dict_del_None {V : Type} (d : dict V) (k : string) :
  dict_del d k = None <-> dict_get d k = None.
Proof.
  unfold dict_del. destruct (dict_get d k); split; congruence.
Qed.

(** What [envvar_set] leaves behind, variable by variable. *)
Lemma envvar_set_lookup {E A : Type} (KeyError : E) (name value : string)
    (body : dict string -> outcome E A * dict string)
    (environ : dict string) (k : string) :
  dict_get (envvar_set E KeyError A name value body environ).2 k =
  if String.eqb k name then dict_get environ name
  else dict_get (body (dict_set environ name value)).2 k.
Proof.
  unfold envvar_set. destruct (body (dict_set environ name value)) as [r env'].
  cbn [snd]. destruct (dict_get environ name) as [old|] eqn:Hold.
  - cbn [snd]. rewrite dict_get_set.
    destruct (String.eqb k name); reflexivity.
  - destruct (dict_del env' name) as [env''|] eqn:Hdel; cbn [snd].
    + rewrite (dict_get_del _ _ _ _ Hdel).
      destruct (String.eqb k name); reflexivity.
    + apply dict_del_None in Hdel.
      destruct (String.eqb_spec k name) as [->|]; [exact Hdel|reflexivity].
Qed.

(** X14 — [with envvar_set(name, value): body] runs the body with the
    variable set to the value and every other variable as it was;
    afterwards, whatever the body did to the environment and whether it
    returned or raised, the variable is as it was before the block (its
    old value, or unset), and every other variable is as the body left
    it.  The block ends as the body ended, except that it raises
    KeyError when the variable was unset before and the body unset it
    again. *)
Theorem envvar_set_restores {E A : Type} (KeyError : E)
    (name value : string)
    (body : dict string -> outcome E A * dict string)
    (environ : dict string) :
  let started := dict_set environ name value in
  let after := envvar_set E KeyError A name value body environ in
  (forall k,
      dict_get started k
      = if String.eqb k name then Some value else dict_get environ k) /\
  dict_get after.2 name = dict_get environ name /\
  (forall k, k <> name -> dict_get after.2 k = dict_get (body started).2 k) /\
  after.1 =
  match dict_get environ name, dict_get (body started).2 name with
  | None, None => Raises KeyError
  | _, _ => (body started).1
  end.
Proof.
  intros started after. split; [intros k; apply dict_get_set|].
  split.
  { subst after. rewrite envvar_set_lookup, String.eqb_refl. reflexivity. }
  split.
  { intros k Hk. subst after. rewrite envvar_set_lookup.
    destruct (String.eqb_spec k name); [contradiction|reflexivity]. }
  subst after started. unfold envvar_set.
  destruct (body (dict_set environ name value)) as [r env'].
  cbn [fst snd]. destruct (dict_get environ name) as [old|]; [reflexivity|].
  unfold dict_del. destruct (dict_get env' name); reflexivity.
Qed.

Lemma envvar_set_outcome {E A : Type} (KeyError : E) (name value : string)
    (body : dict string -> outcome E A * dict string)
    (environ : dict string) (v : string) :
  dict_get (body (dict_set environ name value)).2 name = Some v ->
  (envvar_set E KeyError A name value body environ).1
  = (body (dict_set environ name value)).1.
Proof.
  unfold envvar_set.
  destruct (body (dict_set environ name value)) as [r env']. cbn [fst snd].
  intros Hv. destruct (dict_get environ name); [reflexivity|].
  unfold dict_del. rewrite Hv. reflexivity.
Qed.

Lemma custom_commit_date_lookup {E A datetime : Type} (KeyError : E)
    (str : datetime -> string) (dt : datetime)
    (body : dict string -> outcome E A * dict string)
    (environ : dict string) (k : string) :
  dict_get
    (custom_commit_date E KeyError A datetime str (Some dt) body environ).2 k
  = if String.eqb k "GIT_AUTHOR_DATE" || String.eqb k "GIT_COMMITTER_DATE"
    then dict_get environ k
    else dict_get
           (body (dict_set (dict_set environ "GIT_AUTHOR_DATE" (str dt))
                    "GIT_COMMITTER_DATE" (str dt))).2 k.
Proof.
  unfold custom_commit_date. rewrite !envvar_set_lookup.
  destruct (String.eqb_spec k "GIT_AUTHOR_DATE") as [->|Ha]; cbn [orb];
    [reflexivity|].
  destruct (String.eqb_spec k "GIT_COMMITTER_DATE") as [->|Hc];
    [|reflexivity].
  rewrite dict_get_set. reflexivity.
Qed.

(** X15 — [with custom_commit_date(dt): body] for a date runs the body
    with GIT_AUTHOR_DATE and GIT_COMMITTER_DATE both set to the text of
    the date and every other variable as it was; afterwards, whatever
    the body did and whether it returned or raised, both variables are
    as they were before the block, and every other variable is as the
    body left it. *)
Theorem custom_commit_date_restores {E A datetime : Type} (KeyError : E)
    (str : datetime -> string) (dt : datetime)
    (body : dict string -> outcome E A * dict string)
    (environ : dict string) :
  let started :=
    dict_set (dict_set environ "GIT_AUTHOR_DATE" (str dt))
      "GIT_COMMITTER_DATE" (str dt) in
  let after :=
    custom_commit_date E KeyError A datetime str (Some dt) body environ in
  (forall k,
      dict_get started k
      = if String.eqb k "GIT_AUTHOR_DATE" || String.eqb k "GIT_COMMITTER_DATE"
        then Some (str dt) else dict_get environ k) /\
  (forall k,
      dict_get after.2 k
      = if String.eqb k "GIT_AUTHOR_DATE" || String.eqb k "GIT_COMMITTER_DATE"
        then dict_get environ k else dict_get (body started).2 k).
Proof.
  intros started after. split.
  - intros k. subst started. rewrite !dict_get_set.
    destruct (String.eqb_spec k "GIT_AUTHOR_DATE") as [->|];
      [reflexivity|].
    destruct (String.eqb k "GIT_COMMITTER_DATE"); reflexivity.
  - intros k. apply custom_commit_date_lookup.
Qed.

(** X16 — around a body that leaves the environment alone,
    [with custom_commit_date(dt)] is a round trip: the block ends as the
    body ended (no KeyError from the clean-up) and every variable of the
    environment is as it was before the block; without a date the block
    is the body. *)
Theorem custom_commit_date_round_trip {E A datetime : Type} (KeyError : E)
    (str : datetime -> string) (dt : datetime)
    (body : dict string -> outcome E A * dict string)
    (environ : dict string) :
  let started :=
    dict_set (dict_set environ "GIT_AUTHOR_DATE" (str dt))
      "GIT_COMMITTER_DATE" (str dt) in
  let after :=
    custom_commit_date E KeyError A datetime str (Some dt) body environ in
  (body started).2 = started ->
  after.1 = (body started).1 /\
  (forall k, dict_get after.2 k = dict_get environ k) /\
  custom_commit_date E KeyError A datetime str None body environ
  = body environ.
Proof.
  intros started after Hbody. split; [|split; [|reflexivity]].
  - subst after. unfold custom_commit_date.
    rewrite (envvar_set_outcome KeyError _ _ _ _ (str dt)).
    + apply (envvar_set_outcome KeyError _ _ _ _ (str dt)).
      fold started. rewrite Hbody. subst started.
      rewrite dict_get_set. reflexivity.
    + rewrite envvar_set_lookup. cbn [String.eqb Ascii.eqb Bool.eqb].
      fold started. rewrite Hbody. subst started.
      rewrite !dict_get_set. reflexivity.
  - intros k. subst after. rewrite custom_commit_date_lookup.
    fold started. rewrite Hbody. subst started. rewrite !dict_get_set.
    destruct (String.eqb_spec k "GIT_AUTHOR_DATE") as [->|];
      [reflexivity|].
    destruct (String.eqb k "GIT_COMMITTER_DATE"); reflexivity.
Qed.

Lemma custom_commit_date_round_trip_witness :
  let environ := [("HOME", "/root"); ("GIT_AUTHOR_DATE", "then")]%string in
  let body := fun env : dict string => (@Returns string unit tt, env) in
  let after :=
    custom_commit_date string "KeyError"%string unit unit
      (fun _ => "2021-03-04 05:06:07"%string) (Some tt) body environ in
  after.1 = Returns tt /\
  (forall k, dict_get after.2 k = dict_get environ k) /\
  custom_commit_date string "KeyError"%string unit unit
    (fun _ => "2021-03-04 05:06:07"%string) None body environ
  = body environ.
Proof.
  intros environ body after.
  apply (custom_commit_date_round_trip "KeyError"%string
           (fun _ : unit => "2021-03-04 05:06:07"%string) tt body environ).
  reflexivity.
Defined.

End EnvironFacts.

(** * The files of a dataset *)

Section DatasetFilesFacts.

Lemma node_size_pos (n : node) : (1 <= node_size n)%nat.
Proof. destruct n; simpl; lia. Qed.

Lemma node_size_Dir (p : Path) (entries : list (string * node)) :
  node_size (Dir entries) = S (queue_size (iterdir p entries)).
Proof.
  cbn [node_size]. f_equal.
  induction entries as [|[name c] es IH]; [reflexivity|].
  unfold iterdir. rewrite fmap_cons. cbn [queue_size foldr snd].
  rewrite IH. reflexivity.
Qed.

Lemma queue_size_app (a b : list (Path * node)) :
  queue_size (a ++ b) = (queue_size a + queue_size b)%nat.
Proof.
  induction a as [|f a IH]; [reflexivity|].
  cbn [app queue_size foldr]. fold (queue_size (a ++ b)).
  fold (queue_size a). lia.
Qed.

Lemma leads_to_file_File (rest : Path) :
  leads_to_file File rest <-> rest = [].
Proof. destruct rest; simpl; split; (tauto || discriminate || auto). Qed.

Lemma leads_to_file_Other (rest : Path) : ~ leads_to_file Other rest.
Proof. destruct rest; simpl; tauto. Qed.

(** The loop yields the files below the paths of the deque. *)
Lemma dataset_files_loop_spec (fuel : nat) :
  forall (files : list (Path * node)) (p : Path),
    (queue_size files <= fuel)%nat ->
    p ∈ dataset_files_loop fuel files <->
    exists q n rest, (q, n) ∈ files /\ p = q ++ rest /\ leads_to_file n rest.
Proof.
  assert (Hnil : forall p : Path,
    p ∈ @nil Path <->
    exists q n rest,
      (q, n) ∈ @nil (Path * node) /\ p = q ++ rest /\ leads_to_file n rest).
  { intros p. split; [intros H; inversion H|].
    intros (q & n & rest & H & _). inversion H. }
  induction fuel as [|fuel IH]; intros files p Hsize.
  - destruct files as [|[q0 n0] files']; [apply Hnil|].
    cbn [queue_size foldr snd] in Hsize.
    pose proof (node_size_pos n0). lia.
  - destruct files as [|[q0 n0] files']; [apply Hnil|].
    cbn [queue_size foldr snd] in Hsize. fold (queue_size files') in Hsize.
    cbn [dataset_files_loop]. destruct n0 as [|entries|].
    + rewrite elem_of_cons, IH by (simpl in Hsize; lia). split.
      * intros [->|(q & n & rest & Hin & -> & Hl)].
        -- exists q0, File, []. split; [left|].
           split; [rewrite app_nil_r; reflexivity|exact I].
        -- exists q, n, rest. split; [right; exact Hin|]. split; auto.
      * intros (q & n & rest & Hin & -> & Hl).
        apply elem_of_cons in Hin as [[= -> ->]|Hin].
        -- left. apply leads_to_file_File in Hl as ->.
           apply app_nil_r.
        -- right. eauto 6.
    + rewrite IH.
      2:{ rewrite queue_size_app.
          rewrite (node_size_Dir q0 entries) in Hsize. lia. }
      split.
      * intros (q & n & rest & Hin & -> & Hl).
        apply elem_of_app in Hin as [Hin|Hin].
        -- exists q, n, rest. split; [right; exact Hin|]. split; auto.
        -- unfold iterdir in Hin.
           apply list_elem_of_fmap in Hin as ([name n'] & [= -> ->] & He).
           exists q0, (Dir entries), (name :: rest). split; [left|].
           split; [rewrite <- app_assoc; reflexivity|].
           cbn [leads_to_file]. eauto.
      * intros (q & n & rest & Hin & -> & Hl).
        apply elem_of_cons in Hin as [[= -> ->]|Hin].
        -- destruct rest as [|name rest]; [destruct Hl|].
           destruct Hl as (n' & Hn' & Hl).
           exists (q0 ++ [name]), n', rest. split.
           ++ apply elem_of_app. right. unfold iterdir.
              apply list_elem_of_fmap. exists (name, n'). split; auto.
           ++ split; [rewrite <- app_assoc; reflexivity|exact Hl].
        -- exists q, n, rest. split; [|split; auto].
           apply elem_of_app. left. exact Hin.
    + rewrite IH by (simpl in Hsize; lia). split.
      * intros (q & n & rest & Hin & -> & Hl).
        exists q, n, rest. split; [right; exact Hin|]. split; auto.
      * intros (q & n & rest & Hin & -> & Hl).
        apply elem_of_cons in Hin as [[= -> ->]|Hin].
        -- destruct (leads_to_file_Other _ Hl).
        -- eauto 6.
Qed.

Lemma existsb_eqb_elem_of (x : string) (l : list string) :
  existsb (String.eqb x) l = true <-> x ∈ l.
Proof.
  induction l as [|y l IH]; simpl.
  - split; [discriminate|]. intros H. inversion H.
  - rewrite orb_true_iff, IH, elem_of_cons.
    destruct (String.eqb_spec x y); split; intros [H|H]; auto;
      discriminate || contradiction.
Qed.

(** X17 — [dataset_files] lists exactly the regular files below the
    dataset directory, at any depth, whose top-level component is not
    one of [.dandi], [.datalad], [.git] and [.gitattributes]: the four
    names are left out at the top only (a [.git] inside a subdirectory
    is listed with its files), and what is neither a file nor a
    directory is passed over. *)
Theorem dataset_files_spec (dspath : list (string * node)) (p : Path) :
  p ∈ dataset_files dspath <->
  exists name rest n,
    p = name :: rest /\ (name ∉ excluded_names) /\
    (name, n) ∈ dspath /\ leads_to_file n rest.
Proof.
  unfold dataset_files. rewrite dataset_files_loop_spec by lia. split.
  - intros (q & n & rest & Hin & -> & Hl). unfold iterdir in Hin.
    apply list_elem_of_fmap in Hin as ([name n'] & [= -> ->] & He).
    apply list_elem_of_filter in He as [Hex He]. cbn [fst] in Hex.
    exists name, rest, n'. split; [reflexivity|]. split; [|split; auto].
    intros Hname%existsb_eqb_elem_of. rewrite Hname in Hex. exact Hex.
  - intros (name & rest & n & -> & Hname & Hin & Hl).
    exists [name], n, rest. split; [|split; auto].
    unfold iterdir. apply list_elem_of_fmap. exists (name, n).
    split; [reflexivity|]. apply list_elem_of_filter. split; [|exact Hin].
    cbn [fst]. destruct (existsb (String.eqb name) excluded_names) eqn:Hex;
      [|exact I].
    apply existsb_eqb_elem_of in Hex. contradiction.
Qed.

End DatasetFilesFacts.

(** * Parts submitted in any order, against the file read in one pass *)

Section AnyOrder.

Import PyFloat PyFloatFacts.



End AnyOrder.

(** * The identifiers of all Dandisets *)

Section GetDandisetIdsFacts.

Lemma take_drop_length {A : Type} (n : nat) (l : list A) :
  take n l ++ drop (length (take n l)) l = l.
Proof.
  rewrite length_take. destruct (Nat.le_gt_cases n (length l)).
  - rewrite Nat.min_l by lia. apply take_drop.
  - rewrite Nat.min_r by lia. rewrite take_ge, drop_all by lia.
    apply app_nil_r.
Qed.

Lemma get_dandiset_ids_loop_S {record : Type}
    (client_get : Z -> Z -> list record) (identifier : record -> string)
    (fuel : nat) (offset : Z) :
  get_dandiset_ids_loop record client_get identifier (S fuel) offset =
  match client_get per_page offset with
  | [] => Some []
  | _ :: _ =>
      match get_dandiset_ids_loop record client_get identifier fuel
              (offset + Z.of_nat (length (client_get per_page offset))) with
      | Some ids => Some ((identifier <$> client_get per_page offset) ++ ids)
      | None => None
      end
  end.
Proof. reflexivity. Qed.

Lemma get_dandiset_ids_loop_spec {record : Type}
    (client_get : Z -> Z -> list record) (identifier : record -> string)
    (all : list record) :
  (forall o : nat,
      exists n : nat,
        client_get per_page (Z.of_nat o) = take n (drop o all) /\
        (o < length all -> 1 <= n)%nat) ->
  forall (k o : nat),
    (length all - o <= k)%nat ->
    get_dandiset_ids_loop record client_get identifier (S k) (Z.of_nat o)
    = Some (identifier <$> drop o all).
Proof.
  intros Hserver. induction k as [|k IH]; intros o Hk;
    rewrite get_dandiset_ids_loop_S;
    destruct (Hserver o) as (n & Hpage & Hn); rewrite Hpage.
  - rewrite drop_ge by lia. rewrite take_nil. reflexivity.
  - destruct (take n (drop o all)) as [|d page] eqn:Htake.
    + destruct (Nat.le_gt_cases (length all) o) as [Hge|Hlt].
      * rewrite drop_ge by lia. reflexivity.
      * exfalso. specialize (Hn Hlt).
        assert (Hlen : length (take n (drop o all)) = O)
          by (rewrite Htake; reflexivity).
        rewrite length_take, length_drop in Hlen. lia.
    + rewrite <- Htake.
      replace (Z.of_nat o + Z.of_nat (length (take n (drop o all))))
        with (Z.of_nat (o + length (take n (drop o all)))) by lia.
      assert (Hpos : (1 <= length (take n (drop o all)))%nat)
        by (rewrite Htake; simpl; lia).
      rewrite IH by lia.
      rewrite <- fmap_app, <- drop_drop, take_drop_length. reflexivity.
Qed.

(** X19 — when the server holds a list of records and answers a request
    at an offset with the records from that offset on, as many as it
    likes but at least one while there are any, [get_dandiset_ids]
    yields the identifier of every record once, in the order of the
    list, and stops: one request more than there are records is
    enough. *)
Theorem get_dandiset_ids_all {record : Type}
    (client_get : Z -> Z -> list record) (identifier : record -> string)
    (all : list record) (fuel : nat) :
  (forall o : nat,
      exists n : nat,
        client_get per_page (Z.of_nat o) = take n (drop o all) /\
        (o < length all -> 1 <= n)%nat) ->
  (length all < fuel)%nat ->
  get_dandiset_ids record client_get identifier fuel
  = Some (identifier <$> all).
Proof.
  intros Hserver Hfuel. destruct fuel as [|k]; [lia|].
  unfold get_dandiset_ids.
  apply (get_dandiset_ids_loop_spec client_get identifier all Hserver k O).
  lia.
Qed.

Lemma get_dandiset_ids_all_witness :
  let all := ["000003"; "000004"; "000005"]%string in
  let client_get := fun limit offset : Z =>
    take (Z.to_nat limit) (drop (Z.to_nat offset) all) in
  get_dandiset_ids string client_get (fun d => d) 4 = Some ((fun d => d) <$> all).
Proof.
  intros all client_get.
  apply (get_dandiset_ids_all client_get (fun d => d) all 4).
  - intros o. exists 50%nat. split.
    + unfold client_get. rewrite Nat2Z.id. reflexivity.
    + lia.
  - simpl. lia.
Defined.

End GetDandisetIdsFacts.

(** * The two divisions of [for_file_size] *)

Section Divisions.

Import PyFloat PyFloatFacts.

(** X20 — the size is checked before it is divided, so the two float
    divisions of [for_file_size] never round a quotient past an integer:
    for a size of 0 to 5 TiB, [math.ceil(file_size / part_size)] with
    the part size of 64 MiB and [math.ceil(file_size / MAX_PARTS)] raise
    nothing and are the integer quotients rounded up. *)
Theorem for_file_size_divisions_exact (file_size : Z) :
  0 <= file_size <= tb 5 ->
  ceil_truediv file_size (mb 64) = Ok (ceil_div file_size (mb 64)) /\
  ceil_truediv file_size MAX_PARTS = Ok (ceil_div file_size MAX_PARTS) /\
  (mb 64 * (ceil_div file_size (mb 64) - 1) < file_size
   <= mb 64 * ceil_div file_size (mb 64)) /\
  (MAX_PARTS * (ceil_div file_size MAX_PARTS - 1) < file_size
   <= MAX_PARTS * ceil_div file_size MAX_PARTS).
Proof.
  intros Hs.
  assert (Htb : tb 5 = 5 * 2 ^ 40) by reflexivity.
  assert (Hmb : mb 64 = 2 ^ 26) by reflexivity.
  assert (Hparts : MAX_PARTS = 10000) by reflexivity.
  pose proof (ceil_div_spec file_size (mb 64) ltac:(lia)) as H64.
  pose proof (ceil_div_spec file_size MAX_PARTS ltac:(lia)) as Hmax.
  split; [apply ceil_truediv_exact; lia|].
  split; [apply ceil_truediv_exact; lia|].
  split; lia.
Qed.

Lemma for_file_size_divisions_exact_witness :
  ceil_truediv (mb 130) (mb 64) = Ok (ceil_div (mb 130) (mb 64)) /\
  ceil_truediv (mb 130) MAX_PARTS = Ok (ceil_div (mb 130) MAX_PARTS) /\
  (mb 64 * (ceil_div (mb 130) (mb 64) - 1) < mb 130
   <= mb 64 * ceil_div (mb 130) (mb 64)) /\
  (MAX_PARTS * (ceil_div (mb 130) MAX_PARTS - 1) < mb 130
   <= MAX_PARTS * ceil_div (mb 130) MAX_PARTS).
Proof.
  apply (for_file_size_divisions_exact (mb 130)).
  unfold mb, tb. lia.
Defined.

End Divisions.
